(** * The request pipeline of fastapi-boilerplate: path matching, the
      authentication gate, body capture for the request log, and the
      trailing-slash normalizer.

    The development follows the three middleware modules of the repository:
    - [app/middleware/api_key_auth.py]   ([AuthMiddleware]),
    - [app/middleware/request_logging.py]
      ([RequestResponseLoggingMiddleware]),
    - [app/middleware/trailing_slash.py] ([TrailingSlashMiddleware]).

    Python [str] values are modelled by [string]: one [ascii] stands for one
    character, so [length] is Python's [len].  Python [int] is [Z]. *)

From Stdlib Require Import String Ascii List ZArith Lia Bool Arith PrimFloat.
Import ListNotations.

Local Open Scope string_scope.
Local Open Scope list_scope.

Set Warnings "-register-all".

(* ================================================================== *)
(** * Python string primitives used by the middleware *)
(* ================================================================== *)

Module PyStr.

(** [s.startswith(p)] *)
Fixpoint startswith (s p : string) {struct p} : bool :=
  match p with
  | EmptyString => true
  | String b p' =>
      match s with
      | EmptyString => false
      | String a s' => Ascii.eqb a b && startswith s' p'
      end
  end.

(** [s.endswith(p)] *)
Fixpoint endswith (s p : string) : bool :=
  if String.eqb s p then true
  else match s with
       | EmptyString => false
       | String _ s' => endswith s' p
       end.

(** [sub in s] *)
Fixpoint contains (s sub : string) : bool :=
  if startswith s sub then true
  else match s with
       | EmptyString => false
       | String _ s' => contains s' sub
       end.

(** [s.split(sep)] for a non-empty separator: a left-to-right scan that cuts
    at every occurrence of [sep] and resumes after it.  [skip] counts the
    characters of a separator that is being stepped over, [cur] is the piece
    collected so far. *)
Fixpoint split_go (sep : string) (skip : nat) (cur : string) (s : string)
  {struct s} : list string :=
  match s with
  | EmptyString => [cur]
  | String c s' =>
      match skip with
      | S k => split_go sep k cur s'
      | O =>
          if startswith s sep
          then cur :: split_go sep (String.length sep - 1) EmptyString s'
          else split_go sep 0 (cur ++ String c EmptyString)%string s'
      end
  end.

Definition split (s sep : string) : list string := split_go sep 0 EmptyString s.

(** The text of [s] that precedes the first occurrence of [sep] (all of [s]
    when there is none). *)
Fixpoint before (sep s : string) : string :=
  if startswith s sep then EmptyString
  else match s with
       | EmptyString => EmptyString
       | String c s' => String c (before sep s')
       end.

(** [s[:n]] and [s[n:]] for a count [n] of characters. *)
Fixpoint take (n : nat) (s : string) : string :=
  match n, s with
  | S k, String c s' => String c (take k s')
  | _, _ => EmptyString
  end.

Fixpoint drop (n : nat) (s : string) : string :=
  match n, s with
  | S k, String _ s' => drop k s'
  | _, _ => s
  end.

(** Python's slice [s[:n]] for an arbitrary integer [n]: a negative bound
    counts from the end of the string. *)
Definition slice_to (s : string) (n : Z) : string :=
  if (0 <=? n)%Z then take (Z.to_nat n) s
  else take (String.length s - Z.to_nat (- n)) s.

(** [s[n:]] for [n = len(p)], the only use in the middleware. *)
Definition slice_from (s : string) (n : nat) : string := drop n s.

(** [s.rstrip(chars)] and [s.lstrip(chars)], the character set given as a
    predicate. *)
Fixpoint rstrip_by (p : ascii -> bool) (s : string) : string :=
  match s with
  | EmptyString => EmptyString
  | String a s' =>
      match rstrip_by p s' with
      | EmptyString => if p a then EmptyString else String a EmptyString
      | r => String a r
      end
  end.

Fixpoint lstrip_by (p : ascii -> bool) (s : string) : string :=
  match s with
  | EmptyString => EmptyString
  | String a s' => if p a then lstrip_by p s' else s
  end.

Definition rstrip (s : string) (c : ascii) : string := rstrip_by (Ascii.eqb c) s.

(** Whitespace as [str.strip()] understands it, on the code points 0-255:
    the space, 9-13, 28-31, and the two Latin-1 blanks 133 and 160. *)
Definition is_space (a : ascii) : bool :=
  let n := nat_of_ascii a in
  Nat.eqb n 32 || (Nat.leb 9 n && Nat.leb n 13) || (Nat.leb 28 n && Nat.leb n 31)
  || Nat.eqb n 133 || Nat.eqb n 160.

Definition strip (s : string) : string := lstrip_by is_space (rstrip_by is_space s).

(** [s.lower()] on the code points 0-255: the letters A-Z, and the Latin-1
    capitals 192-222 (215, the multiplication sign, is no letter). *)
Definition lower_char (a : ascii) : ascii :=
  let n := nat_of_ascii a in
  if (Nat.leb 65 n && Nat.leb n 90)
     || (Nat.leb 192 n && Nat.leb n 222 && negb (Nat.eqb n 215))
  then ascii_of_nat (n + 32) else a.

Fixpoint lower (s : string) : string :=
  match s with
  | EmptyString => EmptyString
  | String a s' => String (lower_char a) (lower s')
  end.

(** Truthiness of an optional string: [None] and the empty string are falsy. *)
Definition truthy (o : option string) : bool :=
  match o with
  | Some (String _ _) => true
  | _ => false
  end.

End PyStr.

(* ================================================================== *)
(** * PathMatcher: [AuthMiddleware.path_match] *)
(* ================================================================== *)

Module PathMatcher.
Import PyStr.

(** [if segs and segs[-1] == '': segs.pop()] *)
Definition pop_trailing_empty (segs : list string) : list string :=
  match rev segs with
  | EmptyString :: _ => removelast segs
  | _ => segs
  end.

(** The [for i, pattern_seg in enumerate(pattern_segments)] loop: it is run
    only on lists of equal length, so [path_segments[i]] is always there. *)
Fixpoint segments_match (pattern_segments path_segments : list string) : bool :=
  match pattern_segments, path_segments with
  | [], _ => true
  | pattern_seg :: ps, seg :: ss =>
      if String.eqb pattern_seg "*" then segments_match ps ss
      else if negb (String.eqb pattern_seg seg) then false
      else segments_match ps ss
  | _ :: _, [] => false
  end.

Definition path_match (path pattern : string) : bool :=
  if contains pattern "/**" then
    let base_path := hd EmptyString (split pattern "/**") in
    String.eqb path base_path || startswith path (base_path ++ "/")%string
  else if contains pattern "/*" then
    if negb (String.eqb path "/") && endswith path "/" then false
    else
      let pattern_segments := pop_trailing_empty (split pattern "/") in
      let path_segments := pop_trailing_empty (split path "/") in
      if negb (Nat.eqb (List.length pattern_segments) (List.length path_segments))
      then false
      else segments_match pattern_segments path_segments
  else String.eqb path pattern.

End PathMatcher.

(* ================================================================== *)
(** * Shared data: JSON values, HTTP requests, the effect trace *)
(* ================================================================== *)

Module Http.
Import PyStr.

(** What [json.loads] produces and [json.dumps] accepts.  A Python [dict] is
    kept as its items in insertion order; its keys are pairwise distinct
    ([dict_ok] below is that invariant). *)
Inductive json : Type :=
| JNull
| JBool (b : bool)
| JInt (n : Z)
| JFloat (f : PrimFloat.float)
| JStr (s : string)
| JList (items : list json)
| JDict (items : list (string * json)).

Definition dict := list (string * json).

(** [d.get(key)] *)
Fixpoint dict_get (d : dict) (key : string) : option json :=
  match d with
  | [] => None
  | (k, v) :: d' => if String.eqb k key then Some v else dict_get d' key
  end.

(** [d[key] = value]: an existing key keeps its position, a new key goes to
    the end. *)
Fixpoint dict_set (d : dict) (key : string) (value : json) : dict :=
  match d with
  | [] => [(key, value)]
  | (k, v) :: d' =>
      if String.eqb k key then (k, value) :: d' else (k, v) :: dict_set d' key value
  end.

Definition keys (d : dict) : list string := map fst d.

(** Starlette's [Headers]: the raw list holds lower-case names, and
    [headers.get(name)] returns the first entry whose name is [name.lower()]. *)
Definition Headers := list (string * string).

Fixpoint headers_get (h : Headers) (name : string) : option string :=
  match h with
  | [] => None
  | (k, v) :: h' => if String.eqb k (lower name) then Some v else headers_get h' name
  end.

Definition headers_get_default (h : Headers) (name default : string) : string :=
  match headers_get h name with
  | Some v => v
  | None => default
  end.

Record URL : Type := mkURL {
  url_scheme : string;
  url_netloc : string;
  url_path : string;
  url_query : string
}.

(** [url.replace(path=p)] *)
Definition url_replace_path (u : URL) (p : string) : URL :=
  mkURL (url_scheme u) (url_netloc u) p (url_query u).

(** The parts of a Starlette [Request] the middleware reads or writes:
    [request.url] (built once from the scope), [request.scope["path"]],
    the headers, and the two attributes the gate sets on [request.state]. *)
Record Request : Type := mkRequest {
  url : URL;
  scope_path : string;
  headers : Headers;
  state_user : option json;
  state_token_data : option dict
}.

Inductive log_level : Type := DEBUG | INFO | WARNING.

(** The log lines of [AuthMiddleware], one constructor per call site, with
    the values that the f-string interpolates. *)
Inductive message : Type :=
| ApiKeyAuthOn
| ApiKeyExcludePatterns (patterns : list string)
| ApiKeyNotSet                       (* no API key is set: API-key auth is turned off *)
| ApiKeyAuthOff
| JwtAuthOn
| JwtExcludePatterns (patterns : list string)
| JwtAuthOff
| AllAuthOff                         (* every scheme is off: requests are not authenticated *)
| ApiKeyExtraExcluded (path exclude_path : string)
| ApiKeyPatternExcluded (path pattern : string)
| JwtExtraExcluded (path exclude_path : string)
| JwtPatternExcluded (path pattern : string)
| ApiKeyNoHeader (path : string)
| JwtNoHeader (path : string)
| ApiKeyOk (path : string)
| ApiKeyWrong (path : string)
| JwtOk (path : string)
| JwtFailed (detail path : string)
| BadHeaderFormat (path : string)
| ApiKeyBadHeaderFormat (path : string)
| JwtBadHeaderFormat (path : string).

(** What a run leaves behind besides its result: log records, and the calls
    to the token verifier [get_token_data]. *)
Inductive event : Type :=
| Log (lvl : log_level) (m : message)
| GetTokenData (token : string).

(** A computation with a trace. *)
Definition Traced (A : Type) : Type := (A * list event)%type.

Definition ret {A : Type} (a : A) : Traced A := (a, []).

Definition bind {A B : Type} (m : Traced A) (f : A -> Traced B) : Traced B :=
  let (a, t1) := m in
  let (b, t2) := f a in
  (b, t1 ++ t2).

Definition log (lvl : log_level) (m : message) : Traced unit := (tt, [Log lvl m]).

Definition result {A : Type} (m : Traced A) : A := fst m.
Definition trace {A : Type} (m : Traced A) : list event := snd m.

End Http.

Declare Scope traced_scope.
Delimit Scope traced_scope with traced.
Notation "x <- m ;; k" := (Http.bind m (fun x => k))
  (at level 61, m at next level, right associativity) : traced_scope.
Notation "m ;;; k" := (Http.bind m (fun _ => k))
  (at level 61, right associativity) : traced_scope.

(* ================================================================== *)
(** * AuthGate: [AuthMiddleware] *)
(* ================================================================== *)

Module Auth.
Import PyStr PathMatcher Http.
Local Open Scope traced_scope.

(** [yaml_settings.api.auth.api_key]; [api_key] is the property that reads
    the environment variable [API_KEY] ([None] when it is unset). *)
Record ApiKeyAuthConfig : Type := mkApiKeyAuthConfig {
  ak_enabled : bool;
  header_name : string;
  prefix : string;
  api_key : option string;
  ak_exclude_patterns : list string
}.

(** [yaml_settings.api.auth.jwt], the fields the gate reads. *)
Record JwtAuthConfig : Type := mkJwtAuthConfig {
  jwt_enabled_cfg : bool;
  jwt_exclude_patterns : list string
}.

Record AuthMiddleware : Type := mkAuthMiddleware {
  additional_exclude_paths : list string;
  api_key_settings : ApiKeyAuthConfig;
  jwt_settings : JwtAuthConfig;
  api_key_enabled : bool;
  jwt_enabled : bool
}.

(** [AuthMiddleware.__init__]: [exclude_paths] is the optional constructor
    argument, the two settings stand for the global [yaml_settings]. *)
Definition init (exclude_paths : option (list string))
    (api_key_cfg : ApiKeyAuthConfig) (jwt_cfg : JwtAuthConfig)
  : Traced AuthMiddleware :=
  let additional := match exclude_paths with Some l => l | None => [] end in
  api_key_on <-
    (if ak_enabled api_key_cfg then
       log INFO ApiKeyAuthOn ;;;
       log INFO (ApiKeyExcludePatterns (ak_exclude_patterns api_key_cfg)) ;;;
       if negb (truthy (api_key api_key_cfg))
       then log WARNING ApiKeyNotSet ;;; ret false
       else ret true
     else log INFO ApiKeyAuthOff ;;; ret false) ;;
  (if jwt_enabled_cfg jwt_cfg then
     log INFO JwtAuthOn ;;;
     log INFO (JwtExcludePatterns (jwt_exclude_patterns jwt_cfg))
   else log INFO JwtAuthOff) ;;;
  (if negb api_key_on && negb (jwt_enabled_cfg jwt_cfg)
   then log WARNING AllAuthOff else ret tt) ;;;
  ret (mkAuthMiddleware additional api_key_cfg jwt_cfg
         api_key_on (jwt_enabled_cfg jwt_cfg)).

(** The two loops shared by [is_path_excluded_apikey] and
    [is_path_excluded_jwt]: they differ in the pattern list and in the two
    debug messages. *)
Definition is_path_excluded_with (extra patterns : list string)
    (extra_msg pattern_msg : string -> string -> message) (path : string)
  : Traced bool :=
  match find (fun exclude_path => startswith path exclude_path) extra with
  | Some exclude_path => log DEBUG (extra_msg path exclude_path) ;;; ret true
  | None =>
      match find (fun pattern => path_match path pattern) patterns with
      | Some pattern => log DEBUG (pattern_msg path pattern) ;;; ret true
      | None => ret false
      end
  end.

Definition is_path_excluded_apikey (self : AuthMiddleware) (path : string) : Traced bool :=
  is_path_excluded_with (additional_exclude_paths self)
    (ak_exclude_patterns (api_key_settings self))
    ApiKeyExtraExcluded ApiKeyPatternExcluded path.

Definition is_path_excluded_jwt (self : AuthMiddleware) (path : string) : Traced bool :=
  is_path_excluded_with (additional_exclude_paths self)
    (jwt_exclude_patterns (jwt_settings self))
    JwtExtraExcluded JwtPatternExcluded path.

(** The [detail] text of a 401 body, one constructor per literal. *)
Inductive detail : Type :=
| CredentialRequired                 (* an API key or an access token is required *)
| InvalidApiKey                      (* the API key is wrong *)
| TokenRejected (msg : string)       (* [str(e.detail)] of the verifier's exception *)
| WrongFormatBoth                    (* use the 'ApiKey' or the 'Bearer' prefix *)
| WrongFormatApiKey (pfx : string)   (* use the '<prefix>' prefix *)
| WrongFormatBearer.                 (* use the 'Bearer' prefix *)

(** [JSONResponse(status_code=..., content={"detail": ...}, headers=...)] *)
Record JSONResponse : Type := mkJSONResponse {
  status_code : Z;
  content_detail : detail;
  response_headers : list (string * string)
}.

Definition HTTP_401_UNAUTHORIZED : Z := 401.
Definition www_authenticate_bearer : list (string * string) :=
  [("WWW-Authenticate", "Bearer")].

(** How [dispatch] ends: it awaits [call_next(request)] and returns what the
    next stage returns, or it answers itself. *)
Inductive outcome : Type :=
| CallNext (request : Request)
| Respond (response : JSONResponse).

(** [a and not b()], with Python's short circuit. *)
Definition and_not (a : bool) (b : Traced bool) : Traced bool :=
  if a then (excluded <- b ;; ret (negb excluded)) else ret false.

Section Dispatch.

(** [app.core.auth.get_token_data]: the decoded payload, or the [detail] of
    the [HTTPException] it raises. *)
Variable get_token_data : string -> dict + string.

Definition dispatch (self : AuthMiddleware) (request : Request) : Traced outcome :=
  if negb (api_key_enabled self) && negb (jwt_enabled self) then
    ret (CallNext request)
  else
    let path := url_path (url request) in
    let authorization := headers_get (headers request) "Authorization" in
    if negb (truthy authorization) then
      need_key <- and_not (api_key_enabled self) (is_path_excluded_apikey self path) ;;
      if need_key then
        log WARNING (ApiKeyNoHeader path) ;;;
        ret (Respond (mkJSONResponse HTTP_401_UNAUTHORIZED CredentialRequired []))
      else
        need_jwt <- and_not (jwt_enabled self) (is_path_excluded_jwt self path) ;;
        if need_jwt then
          log WARNING (JwtNoHeader path) ;;;
          ret (Respond (mkJSONResponse HTTP_401_UNAUTHORIZED CredentialRequired
                          www_authenticate_bearer))
        else ret (CallNext request)
    else
      let authorization := match authorization with Some a => a | None => EmptyString end in
      (* what follows the API-key and the token blocks *)
      let wrong_format : Traced outcome :=
        if api_key_enabled self && jwt_enabled self then
          log WARNING (BadHeaderFormat path) ;;;
          ret (Respond (mkJSONResponse HTTP_401_UNAUTHORIZED WrongFormatBoth
                          www_authenticate_bearer))
        else if api_key_enabled self then
          let api_key_prefix := strip (prefix (api_key_settings self)) in
          log WARNING (ApiKeyBadHeaderFormat path) ;;;
          ret (Respond (mkJSONResponse HTTP_401_UNAUTHORIZED
                          (WrongFormatApiKey api_key_prefix) []))
        else if jwt_enabled self then
          log WARNING (JwtBadHeaderFormat path) ;;;
          ret (Respond (mkJSONResponse HTTP_401_UNAUTHORIZED WrongFormatBearer
                          www_authenticate_bearer))
        else ret (CallNext request) in
      let jwt_block : Traced outcome :=
        check_jwt <- and_not (jwt_enabled self) (is_path_excluded_jwt self path) ;;
        if check_jwt && startswith authorization "Bearer " then
          let token := slice_from authorization (String.length "Bearer ") in
          (tt, [GetTokenData token]) ;;;
          match get_token_data token with
          | inl token_data =>
              log DEBUG (JwtOk path) ;;;
              ret (CallNext (mkRequest (url request) (scope_path request)
                               (headers request)
                               (dict_get token_data "sub") (Some token_data)))
          | inr e_detail =>
              log WARNING (JwtFailed e_detail path) ;;;
              ret (Respond (mkJSONResponse HTTP_401_UNAUTHORIZED
                              (TokenRejected e_detail) www_authenticate_bearer))
          end
        else wrong_format in
      check_key <- and_not (api_key_enabled self) (is_path_excluded_apikey self path) ;;
      let api_key_prefix := prefix (api_key_settings self) in
      if check_key && startswith authorization api_key_prefix then
        let key := slice_from authorization (String.length api_key_prefix) in
        if match api_key (api_key_settings self) with
           | Some k => String.eqb key k
           | None => false
           end
        then log DEBUG (ApiKeyOk path) ;;; ret (CallNext request)
        else
          log WARNING (ApiKeyWrong path) ;;;
          ret (Respond (mkJSONResponse HTTP_401_UNAUTHORIZED InvalidApiKey []))
      else jwt_block.

End Dispatch.

End Auth.

(* ================================================================== *)
(** * BodyCapture: [RequestResponseLoggingMiddleware] *)
(* ================================================================== *)

Module Logging.
Import PyStr PathMatcher Http.

Definition FILE_CONTENT_TYPES : list string :=
  [ "multipart/form-data"; "application/octet-stream"; "application/pdf";
    "application/zip"; "application/x-zip-compressed"; "image/jpeg";
    "image/png"; "image/gif"; "image/svg+xml";
    "application/vnd.openxmlformats-officedocument";
    "application/vnd.ms-excel"; "application/msword";
    "application/vnd.ms-powerpoint"; "audio/"; "video/" ].

(** The attributes [__init__] stores; [sensitive_fields] is a Python set,
    used for membership only. *)
Record RequestResponseLoggingMiddleware : Type := mkLogging {
  additional_exclude_paths : list string;
  exclude_patterns : list string;
  sensitive_fields : list string;
  max_body_size : Z;
  log_request_headers : bool;
  log_response_headers : bool;
  log_request_body : bool;
  log_response_body : bool
}.

Definition MASK : string := "******".
Definition TRUNCATED : string := "... [truncated]".

(** [key.lower() in self.sensitive_fields] *)
Definition is_sensitive (fields : list string) (key : string) : bool :=
  existsb (String.eqb (lower key)) fields.

(** [_mask_sensitive_data]: the [for key, value in data.items()] loop fills
    the fresh dict [masked_data] by assignment. *)
Fixpoint mask_with (fields : list string) (data : json) {struct data} : json :=
  match data with
  | JDict items =>
      JDict (fold_left
               (fun (masked_data : dict) (kv : string * json) =>
                  let (key, value) := kv in
                  if is_sensitive fields key
                  then dict_set masked_data key (JStr MASK)
                  else dict_set masked_data key (mask_with fields value))
               items [])
  | JList items => JList (map (mask_with fields) items)
  | _ => data
  end.

Definition _mask_sensitive_data (self : RequestResponseLoggingMiddleware)
    (data : json) : json :=
  mask_with (sensitive_fields self) data.

Definition _truncate_body (self : RequestResponseLoggingMiddleware)
    (body : string) : string :=
  if (Z.of_nat (String.length body) >? max_body_size self)%Z
  then (slice_to body (max_body_size self) ++ TRUNCATED)%string
  else body.

(** The classes [_is_file_response] and [_capture_response_body] test with
    [isinstance].  [LoggableJSONResponse] derives from [JSONResponse];
    [OtherResponse] is every other class ([Response], [StreamingResponse],
    ...). *)
Inductive response_class : Type :=
| FileResponse
| LoggableJSONResponse
| JSONResponse
| OtherResponse.

Record Response : Type := mkResponse {
  class : response_class;
  resp_status_code : Z;
  resp_headers : Headers;
  body : list Byte.byte;
  body_raw : option json        (* [LoggableJSONResponse.body_raw] *)
}.

(** Python truthiness of a decoded JSON value. *)
Definition json_truthy (v : json) : bool :=
  match v with
  | JNull => false
  | JBool b => b
  | JInt n => negb (Z.eqb n 0)
  | JFloat f => negb (PrimFloat.eqb f PrimFloat.zero)
  | JStr s => negb (String.eqb s EmptyString)
  | JList l => negb (Nat.eqb (List.length l) 0)
  | JDict d => negb (Nat.eqb (List.length d) 0)
  end.

Definition _is_file_response (response : Response) : bool :=
  match class response with
  | FileResponse => true
  | _ =>
      let content_disposition :=
        lower (headers_get_default (resp_headers response) "content-disposition" EmptyString) in
      if contains content_disposition "attachment" || contains content_disposition "inline"
      then true
      else
        let content_type :=
          lower (headers_get_default (resp_headers response) "content-type" EmptyString) in
        existsb (fun file_type => startswith content_type file_type) FILE_CONTENT_TYPES
  end.

(** The [re.search] for the file name in a Content-Disposition value, group 1
    of the pattern: the text [filename=], an optional double quote, then one
    or more characters other than a double quote and a semicolon (the
    group), then an optional double quote.  At the first position where the
    pattern matches, the group is the longest run of such characters. *)
Definition quote_char : ascii := ascii_of_nat 34.

Definition name_char (a : ascii) : bool :=
  negb (Ascii.eqb a quote_char) && negb (Ascii.eqb a ";"%char).

Fixpoint span_name (s : string) : string :=
  match s with
  | String a s' => if name_char a then String a (span_name s') else EmptyString
  | EmptyString => EmptyString
  end.

Definition filename_here (s : string) : option string :=
  if startswith s "filename=" then
    let rest := drop (String.length "filename=") s in
    let rest := match rest with
                | String a rest' => if Ascii.eqb a quote_char then rest' else rest
                | EmptyString => rest
                end in
    match span_name rest with
    | EmptyString => None
    | name => Some name
    end
  else None.

Fixpoint search_filename (s : string) : option string :=
  match filename_here s with
  | Some name => Some name
  | None =>
      match s with
      | EmptyString => None
      | String _ s' => search_filename s'
      end
  end.

Section Capture.

(** The library functions the capture relies on: [json.loads] ([None] for a
    [JSONDecodeError]), [json.dumps], and [bytes.decode('utf-8')] ([None]
    for a [UnicodeDecodeError]). *)
Variable json_loads : string -> option json.
Variable json_dumps : json -> string.
Variable decode_utf8 : list Byte.byte -> option string.

(** [_capture_response_body]; the [try ... except Exception] turns a failed
    decoding into a warning and the result [None]. *)
Definition _capture_response_body (self : RequestResponseLoggingMiddleware)
    (response : Response) : option string :=
  if negb (log_response_body self) then None
  else if _is_file_response response then
    let file_info : dict :=
      [ ("type", JStr "file_download");
        ("content_type",
         JStr (headers_get_default (resp_headers response) "content-type" "unknown")) ] in
    let content_disposition :=
      headers_get_default (resp_headers response) "content-disposition" EmptyString in
    let file_info :=
      match content_disposition with
      | EmptyString => file_info
      | _ =>
          match search_filename content_disposition with
          | Some name => dict_set file_info "filename" (JStr name)
          | None => file_info
          end
      end in
    Some (json_dumps (JDict [ ("file_download_info", JDict file_info);
                              ("message", JStr "<file content not logged>") ]))
  else
    match class response with
    | LoggableJSONResponse =>
        match body_raw response with
        | Some raw_body =>
            if json_truthy raw_body then
              let masked_body := _mask_sensitive_data self raw_body in
              Some (_truncate_body self (json_dumps masked_body))
            else None
        | None => None
        end
    | JSONResponse =>
        match body response with
        | [] => None
        | _ =>
            match decode_utf8 (body response) with
            | None => None
            | Some body_str =>
                match json_loads body_str with
                | Some json_body =>
                    let masked_body := _mask_sensitive_data self json_body in
                    Some (_truncate_body self (json_dumps masked_body))
                | None => Some (_truncate_body self body_str)
                end
            end
        end
    | _ => None
    end.

End Capture.

End Logging.

(* ================================================================== *)
(** * TrailingSlashNormalizer: [TrailingSlashMiddleware] *)
(* ================================================================== *)

Module TrailingSlash.
Import PyStr Http.

Record TrailingSlashMiddleware : Type := mkTrailingSlash {
  redirect : bool
}.

(** [RedirectResponse(redirect_url, status_code=301)], or the request that
    goes on to [call_next]. *)
Inductive outcome : Type :=
| RedirectResponse (redirect_url : URL) (status_code : Z)
| CallNext (request : Request).

Definition normalized_path (path : string) : string := rstrip path "/"%char.

Definition dispatch (self : TrailingSlashMiddleware) (request : Request) : outcome :=
  let path := url_path (url request) in
  if negb (String.eqb path "/") && endswith path "/" then
    let normalized_path := normalized_path path in
    if redirect self then
      RedirectResponse (url_replace_path (url request) normalized_path) 301
    else
      CallNext (mkRequest (url request) normalized_path (headers request)
                  (state_user request) (state_token_data request))
  else CallNext request.

End TrailingSlash.

(* ================================================================== *)
(** * Predicates used in the statements *)
(* ================================================================== *)

Module PathMatcherProps.
Import PyStr PathMatcher.

(** How the loop of [path_match] pairs a pattern segment with a path
    segment: a star goes with any segment, any other text with itself. *)
Definition seg_pairs (pattern_seg seg : string) : Prop :=
  pattern_seg = "*" \/ pattern_seg = seg.

(** The pairing as the specification words it: a star goes with a non-empty
    segment only. *)
Definition seg_pairs_nonempty (pattern_seg seg : string) : Prop :=
  (pattern_seg = "*" /\ seg <> EmptyString) \/ (pattern_seg <> "*" /\ pattern_seg = seg).

(** What C3 states, in the words of the specification: under a pattern with
    [/*] and without [/**], a star must be paired with a non-empty path
    segment. *)
Definition single_wildcard_rule_as_specified : Prop :=
  forall path pattern : string,
    contains pattern "/*" = true -> contains pattern "/**" = false ->
    (path = "/" \/ endswith path "/" = false) ->
    let pattern_segments := pop_trailing_empty (split pattern "/") in
    let path_segments := pop_trailing_empty (split path "/") in
    (path_match path pattern = true <->
       List.length pattern_segments = List.length path_segments /\
       Forall2 seg_pairs_nonempty pattern_segments path_segments).

End PathMatcherProps.

Module JsonProps.
Import PyStr Http Logging.

(** Pairwise distinct keys, the invariant of a Python [dict]. *)
Fixpoint distinct (l : list string) : bool :=
  match l with
  | [] => true
  | k :: l' => negb (existsb (String.eqb k) l') && distinct l'
  end.

(** A JSON value all of whose objects have pairwise distinct keys: every
    value that [json.loads] returns or that a Python program builds. *)
Fixpoint json_ok (v : json) : bool :=
  match v with
  | JDict items => distinct (map fst items) && forallb (fun kv => json_ok (snd kv)) items
  | JList items => forallb json_ok items
  | _ => true
  end.





(** What the loop of [_mask_sensitive_data] stores for one item. *)
Definition mask_item (fields : list string) (kv : string * json) : string * json :=
  (fst kv, if is_sensitive fields (fst kv) then JStr MASK else mask_with fields (snd kv)).

Section JsonInduction.
Variable P : json -> Prop.
Hypothesis Hnull : P JNull.
Hypothesis Hbool : forall b, P (JBool b).
Hypothesis Hint : forall n, P (JInt n).
Hypothesis Hfloat : forall f, P (JFloat f).
Hypothesis Hstr : forall s, P (JStr s).
Hypothesis Hlist : forall l, Forall P l -> P (JList l).
Hypothesis Hdict : forall d : dict, Forall (fun kv => P (snd kv)) d -> P (JDict d).

(** Induction on a JSON value, with the hypothesis for every item of a
    list and every value of an object. *)
Fixpoint json_induction (v : json) : P v :=
  match v with
  | JNull => Hnull
  | JBool b => Hbool b
  | JInt n => Hint n
  | JFloat f => Hfloat f
  | JStr s => Hstr s
  | JList l =>
      Hlist l ((fix go (l : list json) : Forall P l :=
                  match l with
                  | [] => Forall_nil _
                  | x :: r => Forall_cons x (json_induction x) (go r)
                  end) l)
  | JDict d =>
      Hdict d ((fix go (d : dict) : Forall (fun kv => P (snd kv)) d :=
                  match d with
                  | [] => Forall_nil _
                  | kv :: r => Forall_cons kv (json_induction (snd kv)) (go r)
                  end) d)
  end.
End JsonInduction.

End JsonProps.

Module LoggingProps.
Import PyStr Http Logging JsonProps.


(** C7 as the specification words it: whatever the configured maximum, a
    body longer than the maximum comes back with exactly [max + len(marker)]
    characters, the first [max] of them those of the body; a body of at most
    [max] characters comes back unchanged. *)
Definition truncation_law_as_specified : Prop :=
  forall (self : RequestResponseLoggingMiddleware) (body : string),
    let max := max_body_size self in
    ((max < Z.of_nat (String.length body))%Z ->
     Z.of_nat (String.length (_truncate_body self body))
     = (max + Z.of_nat (String.length TRUNCATED))%Z /\
     take (Z.to_nat max) (_truncate_body self body) = take (Z.to_nat max) body) /\
    ((Z.of_nat (String.length body) <= max)%Z -> _truncate_body self body = body).

(** The part of [_is_file_response] that reads the declared metadata only:
    the Content-Disposition and Content-Type headers. *)
Definition declared_file (response : Response) : bool :=
  let content_disposition :=
    lower (headers_get_default (resp_headers response) "content-disposition" EmptyString) in
  let content_type :=
    lower (headers_get_default (resp_headers response) "content-type" EmptyString) in
  contains content_disposition "attachment" || contains content_disposition "inline"
  || existsb (fun file_type => startswith content_type file_type) FILE_CONTENT_TYPES.

(** C9 as the specification words it: for a response whose metadata does not
    declare a file, the capture is decided by the body alone, whatever the
    class of the response. *)
Definition capture_keyed_off_metadata : Prop :=
  forall (json_loads : string -> option json) (json_dumps : json -> string)
         (decode_utf8 : list Byte.byte -> option string)
         (self : RequestResponseLoggingMiddleware) (response : Response)
         (body_str : string),
    log_response_body self = true ->
    declared_file response = false ->
    decode_utf8 (body response) = Some body_str ->
    _capture_response_body json_loads json_dumps decode_utf8 self response
    = Some (match json_loads body_str with
            | Some json_body =>
                _truncate_body self (json_dumps (_mask_sensitive_data self json_body))
            | None => _truncate_body self body_str
            end).

(** A stand-in for the JSON library, enough to run the capture on the body
    [{}]: it knows the empty object only. *)
Definition loads_empty_object (s : string) : option json :=
  if String.eqb s "{}" then Some (JDict []) else None.

Definition dumps_empty_object (v : json) : string :=
  match v with
  | JDict [] => "{}"
  | _ => "null"
  end.

Definition decode_bytes (b : list Byte.byte) : option string :=
  Some (string_of_list_byte b).

End LoggingProps.

Module AuthProps.
Import PyStr PathMatcher Http Auth.


(** The settings of the scenarios: API-key authentication with the key
    [secret123] and the prefix [ApiKey ], [/health/**] excluded; token
    authentication off. *)
Definition scenario_api_key : ApiKeyAuthConfig :=
  mkApiKeyAuthConfig true "Authorization" "ApiKey " (Some "secret123") ["/health/**"].

Definition scenario_jwt_off : JwtAuthConfig := mkJwtAuthConfig false [].

(** Token authentication in force as well, with nothing excluded from it. *)
Definition scenario_jwt_on : JwtAuthConfig := mkJwtAuthConfig true [].

Definition scenario_gate : AuthMiddleware :=
  result (init None scenario_api_key scenario_jwt_off).

Definition get_request (path : string) (headers : Headers) : Request :=
  mkRequest (mkURL "http" "testserver" path EmptyString) path headers None None.

(** The path is excluded from every scheme that is switched on. *)
Definition excluded_from_enabled_schemes (self : AuthMiddleware) (path : string) : Prop :=
  (api_key_enabled self = true -> result (is_path_excluded_apikey self path) = true) /\
  (jwt_enabled self = true -> result (is_path_excluded_jwt self path) = true).

End AuthProps.

Module TrailingSlashProps.
Import PyStr Http TrailingSlash.

(** [n] copies of one character. *)
Fixpoint replicate (n : nat) (c : ascii) : string :=
  match n with
  | O => EmptyString
  | S k => String c (replicate k c)
  end.

(** C8 as the specification words it: the normalized path is the path
    without its final character. *)
Definition strips_exactly_one_slash : Prop :=
  forall path : string,
    path <> "/" -> endswith path "/" = true ->
    (normalized_path path ++ "/")%string = path.

End TrailingSlashProps.

Module AuthMore.
Import PyStr PathMatcher Http Auth.

(** The calls to [get_token_data] that a trace records. *)
Definition is_token_call (e : event) : bool :=
  match e with
  | GetTokenData _ => true
  | Log _ _ => false
  end.

(** The request as the gate hands it on after a verified token:
    [request.state.user] and [request.state.token_data] are set, nothing
    else changes. *)
Definition with_identity (request : Request) (token_data : dict) : Request :=
  mkRequest (url request) (scope_path request) (headers request)
    (dict_get token_data "sub") (Some token_data).

End AuthMore.

Module LoggingMore.
Import PyStr PathMatcher Http Logging.

(** A Python [dict] from [str] to [str], as its items in insertion order. *)
Definition str_dict := list (string * string).

Fixpoint str_dict_get (d : str_dict) (key : string) : option string :=
  match d with
  | [] => None
  | (k, v) :: d' => if String.eqb k key then Some v else str_dict_get d' key
  end.

Fixpoint str_dict_set (d : str_dict) (key value : string) : str_dict :=
  match d with
  | [] => [(key, value)]
  | (k, v) :: d' =>
      if String.eqb k key then (k, value) :: d' else (k, v) :: str_dict_set d' key value
  end.

(** [_get_query_params]; [query_items] is what [request.query_params.items()]
    yields. *)
Definition _get_query_params (self : RequestResponseLoggingMiddleware)
    (query_items : list (string * string)) : str_dict :=
  fold_left
    (fun (params : str_dict) (kv : string * string) =>
       let (key, value) := kv in
       if is_sensitive (sensitive_fields self) key
       then str_dict_set params key MASK
       else str_dict_set params key value)
    query_items [].

(** [_get_headers]; [headers.items()] yields the raw list of a Starlette
    [Headers] object. *)
Definition _get_headers (self : RequestResponseLoggingMiddleware)
    (headers : Headers) (is_request : bool) : str_dict :=
  if (is_request && negb (log_request_headers self))
     || (negb is_request && negb (log_response_headers self))
  then []
  else
    fold_left
      (fun (result : str_dict) (kv : string * string) =>
         let (key, value) := kv in
         if is_sensitive (sensitive_fields self) key
            || String.eqb (lower key) "authorization"
         then str_dict_set result key MASK
         else str_dict_set result key value)
      headers [].

Definition FILE_PATH_KEYWORDS : list string :=
  [ "/upload"; "/file"; "/download"; "/attachment" ].

(** [_is_file_request] *)
Definition _is_file_request (request : Request) : bool :=
  let content_type :=
    lower (headers_get_default (headers request) "content-type" EmptyString) in
  if existsb (fun file_type => startswith content_type file_type) FILE_CONTENT_TYPES
  then true
  else existsb (fun keyword => contains (lower (url_path (url request))) keyword)
         FILE_PATH_KEYWORDS.

(** [_get_file_details]: the file name is the first segment of the path
    that holds a dot, looked for only under [/upload/]. *)
Definition _get_file_details (request : Request) (content_type : string) : dict :=
  let file_details : dict :=
    [ ("type", JStr "file_upload"); ("content_type", JStr content_type) ] in
  if contains (url_path (url request)) "/upload/" then
    match find (fun part => contains part ".") (split (url_path (url request)) "/") with
    | Some part => dict_set file_details "filename" (JStr part)
    | None => file_details
    end
  else file_details.

Section RequestBody.

Variable json_loads : string -> option json.
Variable json_dumps : json -> string.
Variable decode_utf8 : list Byte.byte -> option string.

(** [_get_request_body], its result.  [body] is what [await request.body()]
    gives, [None] when reading raises an [Exception]; every [Exception]
    inside the [try] ends in the result [None].  The replay of the body for
    the later stages ([request._receive]) does not bear on the result and
    is left out. *)
Definition _get_request_body (self : RequestResponseLoggingMiddleware)
    (request : Request) (body : option (list Byte.byte)) : option string :=
  if negb (log_request_body self) then None
  else
    let content_type :=
      lower (headers_get_default (headers request) "content-type" EmptyString) in
    if _is_file_request request then
      let file_info := _get_file_details request content_type in
      Some (json_dumps (JDict [ ("file_upload_info", JDict file_info);
                                ("message", JStr "<file content not logged>") ]))
    else
      match body with
      | None => None
      | Some [] => None
      | Some bytes =>
          match decode_utf8 bytes with
          | None => None
          | Some body_str =>
              match json_loads body_str with
              | Some json_body =>
                  let masked_body := _mask_sensitive_data self json_body in
                  Some (_truncate_body self (json_dumps masked_body))
              | None => Some (_truncate_body self body_str)
              end
          end
      end.

End RequestBody.

(** The records that the helpers of the logging middleware write, one
    constructor per call site: the two [logger.debug] calls of
    [is_path_excluded] with the values their f-strings interpolate, and the
    two [logger.warning] calls of [_get_request_body] and
    [_capture_response_body], whose text holds the [str(e)] of the
    exception that was caught. *)
Inductive helper_record : Type :=
| ExcludePathMatched (path exclude_path : string)
| ExcludePatternMatched (path pattern : string)
| RequestBodyLoggingFailed
| ResponseBodyLoggingFailed.

(** [is_path_excluded] of the logging middleware, with the debug record it
    writes when it finds a match. *)
Definition is_path_excluded (self : RequestResponseLoggingMiddleware)
    (path : string) : bool * list helper_record :=
  match find (fun exclude_path => startswith path exclude_path)
          (additional_exclude_paths self) with
  | Some exclude_path => (true, [ExcludePathMatched path exclude_path])
  | None =>
      match find (fun pattern => path_match path pattern) (exclude_patterns self) with
      | Some pattern => (true, [ExcludePatternMatched path pattern])
      | None => (false, [])
      end
  end.

End LoggingMore.

Module LoggingDispatch.
Import PyStr PathMatcher Http Logging LoggingMore.

(** What [dispatch] of the logging middleware reads of a request besides
    the parts in [Request]: the method, [request.client.host] ([None] when
    [request.client] is [None]), the items of the query string and the path
    parameters. *)
Record HttpRequest : Type := mkHttpRequest {
  request : Request;
  method : string;
  client_host : option string;
  query_items : list (string * string);
  path_params : dict
}.

(** [MutableHeaders.__setitem__]: the first header of that name takes the
    value and the later ones go; without one the header is appended. *)
Fixpoint headers_set (h : Headers) (name value : string) : Headers :=
  match h with
  | [] => [(lower name, value)]
  | (k, v) :: h' =>
      if String.eqb k (lower name)
      then (k, value) :: filter (fun kv => negb (String.eqb (fst kv) (lower name))) h'
      else (k, v) :: headers_set h' name value
  end.

Section Dispatch.

Variable json_loads : string -> option json.
Variable json_dumps : json -> string.
Variable decode_utf8 : list Byte.byte -> option string.

(** What the awaited calls ([request.body()], [call_next]) can raise, with
    the [str(e)] of each.  [is_exception e] is [isinstance(e, Exception)]:
    it is false for [asyncio.CancelledError], [KeyboardInterrupt] and
    [SystemExit], which derive from [BaseException] alone and pass through
    every [except Exception] of the middleware. *)
Variable exn : Type.
Variable exn_str : exn -> string.
Variable is_exception : exn -> bool.

(** The type of the rounded elapsed milliseconds that the clock yields. *)
Variable duration : Type.

(** The body as [_get_request_body] of [LoggingMore] takes it. *)
Definition body_read (body : list Byte.byte + exn) : option (list Byte.byte) :=
  match body with
  | inl bytes => Some bytes
  | inr _ => None
  end.

(** [_get_request_body] with its log records and the exceptions it lets
    through.  [body] is how [await request.body()] ends, which is awaited
    only for a request that is no file upload and with body logging on.  An
    [Exception] inside the [try] (a failed read, bytes that are not UTF-8)
    is caught: the helper writes a warning and returns [None]; anything
    else that the read raises leaves the helper. *)
Definition _get_request_body_logged (self : RequestResponseLoggingMiddleware)
    (request : Request) (body : list Byte.byte + exn)
  : (option string + exn) * list helper_record :=
  if negb (log_request_body self) then (inl None, [])
  else
    let content_type :=
      lower (headers_get_default (headers request) "content-type" EmptyString) in
    if _is_file_request request then
      let file_info := _get_file_details request content_type in
      (inl (Some (json_dumps (JDict [ ("file_upload_info", JDict file_info);
                                      ("message", JStr "<file content not logged>") ]))),
       [])
    else
      match body with
      | inr e =>
          if is_exception e then (inl None, [RequestBodyLoggingFailed])
          else (inr e, [])
      | inl [] => (inl None, [])
      | inl bytes =>
          match decode_utf8 bytes with
          | None => (inl None, [RequestBodyLoggingFailed])
          | Some body_str =>
              match json_loads body_str with
              | Some json_body =>
                  let masked_body := _mask_sensitive_data self json_body in
                  (inl (Some (_truncate_body self (json_dumps masked_body))), [])
              | None => (inl (Some (_truncate_body self body_str)), [])
              end
          end
      end.

(** [_capture_response_body] with its log record: bytes that are not UTF-8
    are the one [Exception] of the [try], caught with a warning. *)
Definition _capture_response_body_logged (self : RequestResponseLoggingMiddleware)
    (response : Response) : option string * list helper_record :=
  if negb (log_response_body self) then (None, [])
  else if _is_file_response response then
    let file_info : dict :=
      [ ("type", JStr "file_download");
        ("content_type",
         JStr (headers_get_default (resp_headers response) "content-type" "unknown")) ] in
    let content_disposition :=
      headers_get_default (resp_headers response) "content-disposition" EmptyString in
    let file_info :=
      match content_disposition with
      | EmptyString => file_info
      | _ =>
          match search_filename content_disposition with
          | Some name => dict_set file_info "filename" (JStr name)
          | None => file_info
          end
      end in
    (Some (json_dumps (JDict [ ("file_download_info", JDict file_info);
                               ("message", JStr "<file content not logged>") ])),
     [])
  else
    match class response with
    | LoggableJSONResponse =>
        match body_raw response with
        | Some raw_body =>
            if json_truthy raw_body then
              let masked_body := _mask_sensitive_data self raw_body in
              (Some (_truncate_body self (json_dumps masked_body)), [])
            else (None, [])
        | None => (None, [])
        end
    | JSONResponse =>
        match body response with
        | [] => (None, [])
        | _ =>
            match decode_utf8 (body response) with
            | None => (None, [ResponseBodyLoggingFailed])
            | Some body_str =>
                match json_loads body_str with
                | Some json_body =>
                    let masked_body := _mask_sensitive_data self json_body in
                    (Some (_truncate_body self (json_dumps masked_body)), [])
                | None => (Some (_truncate_body self body_str), [])
                end
            end
        end
    | _ => (None, [])
    end.

(** The dict [logging_context] that goes out as [extra] of a log call. *)
Record logging_context : Type := mkContext {
  ctx_request_id : string;
  ctx_method : string;
  ctx_path : string;
  ctx_client : string;
  ctx_query_params : str_dict;
  ctx_path_params : dict;
  ctx_headers : str_dict;
  ctx_request_body : option string;
  ctx_status_code : option Z;
  ctx_process_time_ms : option duration;
  ctx_response_headers : option str_dict;
  ctx_response_body : option string;
  ctx_error : option string
}.

(** Everything a run of [dispatch] logs, in order: the records of the
    helpers, the two [logger.info] calls ("started", "completed") and the
    [logger.exception] call ("failed") of [dispatch] itself. *)
Inductive log_record : Type :=
| Helper (r : helper_record)
| RequestStarted (context : logging_context)
| RequestCompleted (context : logging_context)
| RequestFailed (context : logging_context).

Inductive dispatch_outcome : Type :=
| Returned (response : Response)
| Raised (e : exn).

(** A captured body enters the context only when it is truthy. *)
Definition if_truthy (o : option string) : option string :=
  if truthy o then o else None.

(** [dispatch]: [request_id] is the fresh [uuid4], [process_time_ms] the
    rounded time the clock gives for the call of the next stage,
    [read_body] how [await request.body()] ends and [call_next] the next
    stage.  The [try] around the call of the next stage catches an
    [Exception] only. *)
Definition dispatch (self : RequestResponseLoggingMiddleware)
    (request_id : string) (process_time_ms : duration)
    (read_body : HttpRequest -> list Byte.byte + exn)
    (call_next : HttpRequest -> Response + exn) (req : HttpRequest)
  : dispatch_outcome * list log_record :=
  let path := url_path (url (request req)) in
  let (excluded, excluded_log) := is_path_excluded self path in
  if excluded then
    (match call_next req with
     | inl response => Returned response
     | inr e => Raised e
     end,
     map Helper excluded_log)
  else
    match _get_request_body_logged self (request req) (read_body req) with
    | (inr e, body_log) => (Raised e, map Helper (excluded_log ++ body_log))
    | (inl request_body, body_log) =>
        let started :=
          mkContext request_id (method req) path
            (match client_host req with Some host => host | None => "unknown" end)
            (_get_query_params self (query_items req))
            (path_params req)
            (_get_headers self (headers (request req)) true)
            (if_truthy request_body)
            None None None None None in
        let before :=
          map Helper (excluded_log ++ body_log) ++ [RequestStarted started] in
        match call_next req with
        | inl response =>
            let (response_body, capture_log) :=
              _capture_response_body_logged self response in
            let completed :=
              mkContext (ctx_request_id started) (ctx_method started) (ctx_path started)
                (ctx_client started) (ctx_query_params started) (ctx_path_params started)
                (ctx_headers started) (ctx_request_body started)
                (Some (resp_status_code response)) (Some process_time_ms)
                (if log_response_headers self
                 then Some (_get_headers self (resp_headers response) false)
                 else None)
                (if_truthy response_body)
                None in
            (Returned (mkResponse (class response) (resp_status_code response)
                         (headers_set (resp_headers response) "X-Request-ID" request_id)
                         (body response) (body_raw response)),
             before ++ map Helper capture_log ++ [RequestCompleted completed])
        | inr e =>
            if is_exception e then
              let failed :=
                mkContext (ctx_request_id started) (ctx_method started) (ctx_path started)
                  (ctx_client started) (ctx_query_params started) (ctx_path_params started)
                  (ctx_headers started) (ctx_request_body started)
                  (Some 500%Z) (Some process_time_ms) None None (Some (exn_str e)) in
              (Raised e, before ++ [RequestFailed failed])
            else (Raised e, before)
        end
    end.

End Dispatch.

End LoggingDispatch.

Module YamlConfig.
Import PyStr Http.

(** The values of a loaded YAML file are modelled by [json]: [None] is
    [JNull], a mapping is a [JDict]. *)

(** [isinstance(value, str) and value == '__reset__'] *)
Definition is_reset (value : json) : bool :=
  match value with
  | JStr s => String.eqb s "__reset__"
  | _ => false
  end.

(** What [__reset__] leaves under a key, by the type of the old value.  The
    test for [(int, float)] comes before the test for [bool], and a Python
    [bool] is an [int]: a boolean is reset to [0]. *)
Definition reset_value (old : json) : json :=
  match old with
  | JDict _ => JDict []
  | JList _ => JList []
  | JStr _ => JStr EmptyString
  | JInt _ | JFloat _ | JBool _ => JInt 0
  | JNull => JNull
  end.

(** [deep_merge]: [result] starts as a copy of [dict1], and the loop runs
    over the items of [dict2].  Values are immutable here, so [deepcopy] is
    the identity. *)
Fixpoint deep_merge_into (result : dict) (dict2 : json) {struct dict2} : dict :=
  match dict2 with
  | JDict items =>
      fold_left
        (fun (result : dict) (kv : string * json) =>
           let (key, value) := kv in
           match value with
           | JNull => result
           | _ =>
               if is_reset value then
                 match dict_get result key with
                 | Some old => dict_set result key (reset_value old)
                 | None => result
                 end
               else
                 match dict_get result key, value with
                 | Some (JDict old), JDict _ =>
                     dict_set result key (JDict (deep_merge_into old value))
                 | _, _ => dict_set result key value
                 end
           end)
        items result
  | _ => result
  end.

Definition deep_merge (dict1 dict2 : dict) : dict := deep_merge_into dict1 (JDict dict2).

(** One round of the loop of [deep_merge]. *)
Definition merge_item (result : dict) (kv : string * json) : dict :=
  let (key, value) := kv in
  match value with
  | JNull => result
  | _ =>
      if is_reset value then
        match dict_get result key with
        | Some old => dict_set result key (reset_value old)
        | None => result
        end
      else
        match dict_get result key, value with
        | Some (JDict old), JDict new => dict_set result key (JDict (deep_merge old new))
        | _, _ => dict_set result key value
        end
  end.

(** An item of the override that adds a key to a base without it: its value
    is neither [None] nor the reset marker. *)
Definition adds_key (value : json) : bool :=
  match value with
  | JNull => false
  | _ => negb (is_reset value)
  end.

(** What [deep_merge] leaves under a key that the base has with the value
    [old] (or lacks, [None]) and the override has with the value [value]. *)
Definition merged_value (old : option json) (value : json) : option json :=
  match value with
  | JNull => old
  | _ =>
      if is_reset value then option_map reset_value old
      else
        match old, value with
        | Some (JDict old_items), JDict new_items =>
            Some (JDict (deep_merge old_items new_items))
        | _, _ => Some value
        end
  end.

(** [LoggingConfig.validate_format]: the validated value, or [None] for the
    [ValueError]. *)
Definition validate_format (v : string) : option string :=
  if existsb (String.eqb (lower v)) ["text"; "json"] then Some (lower v) else None.

(** [get_environment_from_yaml], [is_development], [is_production]; [env] is
    [yaml_settings.app.env]. *)
Definition get_environment_from_yaml (env : string) : string := lower env.

Definition is_development (env : string) : bool :=
  existsb (String.eqb (get_environment_from_yaml env)) ["dev"; "development"; "local"].

Definition is_production (env : string) : bool :=
  existsb (String.eqb (get_environment_from_yaml env)) ["prod"; "production"].

End YamlConfig.

(* ================================================================== *)
(** * Facts about the string primitives *)
(* ================================================================== *)

Module PyStrFacts.
Import PyStr.

Lemma append_nil_r (s : string) : (s ++ EmptyString)%string = s.
Proof. induction s as [|a s IH]; simpl; [reflexivity | now rewrite IH]. Qed.

Lemma append_assoc (s t u : string) : ((s ++ t) ++ u)%string = (s ++ (t ++ u))%string.
Proof. induction s as [|a s IH]; simpl; [reflexivity | now rewrite IH]. Qed.

Lemma length_append (s t : string) :
  String.length (s ++ t) = String.length s + String.length t.
Proof. induction s as [|a s IH]; simpl; [reflexivity | now rewrite IH]. Qed.

Lemma startswith_iff (s p : string) :
  startswith s p = true <-> exists t, s = (p ++ t)%string.
Proof.
  revert s; induction p as [|b p IH]; intros s; simpl.
  - split; [intros _; now exists s | reflexivity].
  - destruct s as [|a s].
    + split; [discriminate | intros [t Ht]; discriminate].
    + rewrite andb_true_iff, Ascii.eqb_eq, IH. split.
      * intros [-> [t ->]]. now exists t.
      * intros [t Ht]. injection Ht as -> ->. split; [reflexivity | now exists t].
Qed.

Lemma startswith_append (p t : string) : startswith (p ++ t) p = true.
Proof. apply startswith_iff. now exists t. Qed.

Lemma contains_unfold (s sub : string) :
  contains s sub =
  if startswith s sub then true
  else match s with EmptyString => false | String _ s' => contains s' sub end.
Proof. destruct s; reflexivity. Qed.

Lemma before_unfold (sep s : string) :
  before sep s =
  if startswith s sep then EmptyString
  else match s with EmptyString => EmptyString | String c s' => String c (before sep s') end.
Proof. destruct s; reflexivity. Qed.

(** [before sep s] really is a piece of [s] followed by [sep]. *)
Lemma before_decomp (sep s : string) :
  contains s sep = true -> exists rest, s = (before sep s ++ sep ++ rest)%string.
Proof.
  induction s as [|c s IH]; rewrite contains_unfold, before_unfold;
    destruct (startswith _ sep) eqn:E; intros H.
  - apply startswith_iff in E. exact E.
  - discriminate.
  - apply startswith_iff in E. exact E.
  - destruct (IH H) as [rest Hrest]. exists rest. simpl. now rewrite <- Hrest.
Qed.

(** ... and no occurrence of [sep] starts earlier. *)
Lemma before_minimal (sep s b r : string) :
  s = (b ++ sep ++ r)%string -> String.length (before sep s) <= String.length b.
Proof.
  revert b; induction s as [|c s IH]; intros b Hs; rewrite before_unfold;
    destruct (startswith _ sep) eqn:E; simpl; try lia.
  destruct b as [|c' b].
  - simpl in Hs. rewrite Hs, startswith_append in E. discriminate.
  - simpl in Hs. injection Hs as _ Hs. specialize (IH b Hs). simpl. lia.
Qed.

Lemma hd_split_go (sep cur s d : string) :
  hd d (split_go sep 0 cur s) = (cur ++ before sep s)%string.
Proof.
  revert cur; induction s as [|c s IH]; intros cur.
  - simpl. destruct sep; simpl; now rewrite append_nil_r.
  - rewrite before_unfold. cbn [split_go].
    destruct (startswith (String c s) sep).
    + simpl. now rewrite append_nil_r.
    + rewrite IH, append_assoc. reflexivity.
Qed.

(** [s.split(sep)[0]] is the text before the first [sep]. *)
Lemma hd_split (s sep : string) : hd EmptyString (split s sep) = before sep s.
Proof. unfold split. now rewrite hd_split_go. Qed.

Lemma endswith_unfold (s p : string) :
  endswith s p =
  if String.eqb s p then true
  else match s with EmptyString => false | String _ s' => endswith s' p end.
Proof. destruct s; reflexivity. Qed.

Lemma endswith_iff (s p : string) :
  endswith s p = true <-> exists t, s = (t ++ p)%string.
Proof.
  induction s as [|a s IH]; rewrite endswith_unfold;
    match goal with
    | |- context [String.eqb ?x p] => destruct (String.eqb_spec x p) as [E|E]
    end.
  - split; [intros _; now exists EmptyString | reflexivity].
  - split; [discriminate|]. intros [t Ht]. destruct t; simpl in Ht; congruence.
  - split; [intros _; now exists EmptyString | reflexivity].
  - rewrite IH. split.
    + intros [t ->]. now exists (String a t).
    + intros [t Ht]. destruct t as [|a' t]; simpl in Ht; [congruence|].
      injection Ht as _ ->. now exists t.
Qed.

End PyStrFacts.

(* ================================================================== *)
(** * PathMatcher: the two wildcard rules *)
(* ================================================================== *)

Module PathMatcherFacts.
Import PyStr PathMatcher PathMatcherProps PyStrFacts.

Lemma segments_match_iff (ps ss : list string) :
  List.length ps = List.length ss ->
  (segments_match ps ss = true <-> Forall2 seg_pairs ps ss).
Proof.
  revert ss; induction ps as [|p ps IH]; intros [|s ss] Hlen; simpl in Hlen;
    try discriminate.
  - simpl. split; [constructor | reflexivity].
  - injection Hlen as Hlen. specialize (IH ss Hlen). simpl.
    destruct (String.eqb_spec p "*") as [Hp|Hp].
    + rewrite IH. split.
      * intros H. constructor; [now left | exact H].
      * intros H. now inversion H.
    + destruct (String.eqb_spec p s) as [Hs|Hs]; simpl.
      * rewrite IH. split.
        -- intros H. constructor; [now right | exact H].
        -- intros H. now inversion H.
      * split; [discriminate|]. intros H. inversion H as [|? ? ? ? [Hq|Hq] _]; subst;
          contradiction.
Qed.

(** C2. A pattern that contains [/**] is matched by rule 1 alone: with [base]
    the text of the pattern before its first [/**], the path matches exactly
    when it is [base] or starts with [base] and a slash; a path that
    continues [base] with another character does not match.  Every such
    pattern also contains [/*], so the rule holds in the presence of a lone
    star as well. *)
Theorem path_match_recursive (path pattern : string) :
  contains pattern "/**" = true ->
  exists base rest : string,
    pattern = (base ++ "/**" ++ rest)%string /\
    (forall b r : string,
        pattern = (b ++ "/**" ++ r)%string -> String.length base <= String.length b) /\
    (path_match path pattern = true <->
       path = base \/ exists tail : string, path = (base ++ "/" ++ tail)%string) /\
    (forall (c : ascii) (tail : string),
        path = (base ++ String c tail)%string -> c <> "/"%char ->
        path_match path pattern = false).
Proof.
  intros Hc. destruct (before_decomp _ _ Hc) as [rest Hrest].
  exists (before "/**" pattern), rest.
  assert (Hm : path_match path pattern = true <->
               path = before "/**" pattern \/
               exists tail, path = (before "/**" pattern ++ "/" ++ tail)%string).
  { unfold path_match. rewrite Hc, hd_split, orb_true_iff, String.eqb_eq, startswith_iff.
    split; (intros [H|[t H]]; [now left | right; exists t]).
    - now rewrite H, append_assoc.
    - now rewrite H, append_assoc. }
  repeat split; try (apply Hm).
  - exact Hrest.
  - intros b r Hb. eapply before_minimal; exact Hb.
  - intros c tail Hp Hne. apply not_true_is_false. intros E.
    apply Hm in E. destruct E as [E|[t E]]; rewrite E in Hp.
    + apply (f_equal String.length) in Hp. rewrite length_append in Hp. simpl in Hp. lia.
    + revert Hp. generalize (before "/**" pattern). intros b; induction b as [|x b IH];
        simpl; intros Hp; injection Hp; auto.
Qed.

(** The rule at [/health/liveness] against [/health/**]. *)
Lemma path_match_recursive_witness :
  contains "/health/**" "/**" = true /\
  exists base rest : string,
    "/health/**" = (base ++ "/**" ++ rest)%string /\
    (forall b r : string,
        "/health/**" = (b ++ "/**" ++ r)%string -> String.length base <= String.length b) /\
    (path_match "/health/liveness" "/health/**" = true <->
       "/health/liveness" = base \/
       exists tail : string, "/health/liveness" = (base ++ "/" ++ tail)%string) /\
    (forall (c : ascii) (tail : string),
        "/health/liveness" = (base ++ String c tail)%string -> c <> "/"%char ->
        path_match "/health/liveness" "/health/**" = false).
Proof.
  split; [reflexivity | apply (path_match_recursive "/health/liveness" "/health/**")].
  reflexivity.
Defined.

(** The scenarios of the test suite and of the specification, among them a
    pattern with a lone star before [/**] (the star is then plain text). *)
Example path_match_scenarios :
  path_match "/health" "/health/**" = true /\
  path_match "/health/" "/health/**" = true /\
  path_match "/health/readiness/detailed" "/health/**" = true /\
  path_match "/healthcheck" "/health/**" = false /\
  path_match "/api/health" "/health/**" = false /\
  path_match "/api/v1/files/x" "/api/*/files/**" = false /\
  path_match "/api/*/files/x" "/api/*/files/**" = true /\
  path_match "/api/users" "/api/*" = true /\
  path_match "/api" "/api/*" = false /\
  path_match "/api/users/me" "/api/*" = false /\
  path_match "/api/users/" "/api/*" = false /\
  path_match "/users/123/posts/456" "/users/*/posts/*" = true /\
  path_match "/metrics" "/metrics" = true /\
  path_match "/metrics/custom" "/metrics" = false.
Proof. repeat split. Qed.

(** The rule as the specification words it does not hold of the code:
    [/api//x] is split into ["", "api", "", "x"]; the pattern [/api/*/x]
    pairs its star with the empty third segment, and the loop accepts the
    pair. *)
Lemma star_matches_empty_segment : ~ single_wildcard_rule_as_specified.
Proof.
  intros H.
  specialize (H "/api//x" "/api/*/x" eq_refl eq_refl (or_intror eq_refl)).
  cbv zeta in H. destruct H as [H _]. destruct (H eq_refl) as [_ HF].
  vm_compute in HF.
  inversion HF as [|? ? ? ? _ HF1]; subst.
  inversion HF1 as [|? ? ? ? _ HF2]; subst.
  inversion HF2 as [|? ? ? ? [[_ Hne]|[Hstar _]] _]; subst.
  - now apply Hne.
  - now apply Hstar.
Qed.

(** What the code does under a pattern with [/*] and without [/**]: a
    path other than [/] that ends in a slash never matches; otherwise both
    strings are split at the slashes, a trailing empty segment is dropped
    from each, the match fails when the counts differ, and it succeeds
    exactly when every pattern segment is a star (paired with any path
    segment, an empty one included) or equals its path segment. *)
Theorem path_match_single_wildcard (path pattern : string) :
  contains pattern "/*" = true -> contains pattern "/**" = false ->
  (path <> "/" -> endswith path "/" = true -> path_match path pattern = false) /\
  (path = "/" \/ endswith path "/" = false ->
   let pattern_segments := pop_trailing_empty (split pattern "/") in
   let path_segments := pop_trailing_empty (split path "/") in
   (List.length pattern_segments <> List.length path_segments ->
    path_match path pattern = false) /\
   (path_match path pattern = true <->
      List.length pattern_segments = List.length path_segments /\
      Forall2 seg_pairs pattern_segments path_segments)).
Proof.
  intros H1 H2. split.
  - intros Hne Hend. unfold path_match. rewrite H1, H2, Hend.
    apply String.eqb_neq in Hne. now rewrite Hne.
  - intros Hok pattern_segments path_segments.
    assert (Hcond : negb (String.eqb path "/") && endswith path "/" = false).
    { destruct Hok as [ -> | -> ]; [reflexivity | apply andb_false_r]. }
    unfold path_match. rewrite H1, H2, Hcond. fold pattern_segments path_segments.
    destruct (Nat.eqb_spec (List.length pattern_segments) (List.length path_segments))
      as [E|E]; simpl.
    + split; [intros Hn; contradiction|].
      rewrite (segments_match_iff _ _ E). tauto.
    + split; [reflexivity|]. split; [discriminate | intros [Hl _]; contradiction].
Qed.

(** The rule at [/api/users] against [/api/*]. *)
Lemma path_match_single_wildcard_witness :
  (contains "/api/*" "/*" = true /\ contains "/api/*" "/**" = false) /\
  ("/api/users" <> "/" -> endswith "/api/users" "/" = true ->
   path_match "/api/users" "/api/*" = false) /\
  ("/api/users" = "/" \/ endswith "/api/users" "/" = false ->
   let pattern_segments := pop_trailing_empty (split "/api/*" "/") in
   let path_segments := pop_trailing_empty (split "/api/users" "/") in
   (List.length pattern_segments <> List.length path_segments ->
    path_match "/api/users" "/api/*" = false) /\
   (path_match "/api/users" "/api/*" = true <->
      List.length pattern_segments = List.length path_segments /\
      Forall2 seg_pairs pattern_segments path_segments)).
Proof.
  split; [split; reflexivity|].
  apply (path_match_single_wildcard "/api/users" "/api/*"); reflexivity.
Defined.

Lemma Forall2_seg_pairs_nonempty (pattern_segments path_segments : list string) :
  (forall p s, In (p, s) (combine pattern_segments path_segments) ->
               p = "*" -> s <> EmptyString) ->
  (Forall2 seg_pairs pattern_segments path_segments <->
   Forall2 seg_pairs_nonempty pattern_segments path_segments).
Proof.
  intros Hstar. split; intros HF.
  - induction HF as [|p s ps ss Hps HF IH]; constructor.
    + destruct (string_dec p "*") as [Ep|Ep].
      * left. split; [exact Ep|]. apply (Hstar p s); [now left | exact Ep].
      * right. split; [exact Ep|]. destruct Hps as [Hp|Hp]; [contradiction | exact Hp].
    + apply IH. intros p' s' Hin. apply Hstar. now right.
  - clear Hstar. induction HF as [|p s ps ss Hps HF IH]; constructor; [|exact IH].
    destruct Hps as [[Hp _]|[_ Hp]]; [now left | now right].
Qed.

(** The defect is confined to the empty segments: for a path in which no
    star of the pattern meets an empty segment, the code decides as the
    specification says. *)
Lemma single_wildcard_rule_away_from_empty_segments (path pattern : string) :
  contains pattern "/*" = true -> contains pattern "/**" = false ->
  (path = "/" \/ endswith path "/" = false) ->
  let pattern_segments := pop_trailing_empty (split pattern "/") in
  let path_segments := pop_trailing_empty (split path "/") in
  (forall p s, In (p, s) (combine pattern_segments path_segments) ->
               p = "*" -> s <> EmptyString) ->
  (path_match path pattern = true <->
     List.length pattern_segments = List.length path_segments /\
     Forall2 seg_pairs_nonempty pattern_segments path_segments).
Proof.
  intros H1 H2 Hok pattern_segments path_segments Hstar.
  destruct (path_match_single_wildcard path pattern H1 H2) as [_ H].
  destruct (H Hok) as [_ Hiff]. fold pattern_segments path_segments in Hiff.
  rewrite Hiff. now rewrite (Forall2_seg_pairs_nonempty _ _ Hstar).
Qed.

(** C3, at the failing input.  The specification, the docstring of
    [path_match] (a star stands for exactly one path segment) and the test
    table (an empty segment is not matched) keep a star away from an empty
    segment, and the guard on a trailing slash does refuse [/api/] under
    [/api/*].  An empty segment in the middle of the path passes the guard:
    [/api//x] is split into ["", "api", "", "x"], the star of [/api/*/x]
    meets the empty third segment, which the pairing of the specification
    refuses, and [path_match] answers true. *)
Theorem single_wildcard_accepts_empty_segment :
  path_match "/api//x" "/api/*/x" = true /\
  pop_trailing_empty (split "/api//x" "/") = [EmptyString; "api"; EmptyString; "x"] /\
  pop_trailing_empty (split "/api/*/x" "/") = [EmptyString; "api"; "*"; "x"] /\
  ~ Forall2 seg_pairs_nonempty
      (pop_trailing_empty (split "/api/*/x" "/"))
      (pop_trailing_empty (split "/api//x" "/")) /\
  path_match "/api/" "/api/*" = false /\
  path_match "/api/v1/x" "/api/*/x" = true.
Proof.
  split; [reflexivity|]. split; [reflexivity|]. split; [reflexivity|].
  split; [|split; reflexivity].
  intros HF. vm_compute in HF.
  inversion HF as [|? ? ? ? _ HF1]; subst.
  inversion HF1 as [|? ? ? ? _ HF2]; subst.
  inversion HF2 as [|? ? ? ? [[_ Hne]|[Hstar _]] _]; subst.
  - now apply Hne.
  - now apply Hstar.
Qed.

End PathMatcherFacts.

(* ================================================================== *)
(** * BodyCapture: masking, truncation, response capture *)
(* ================================================================== *)

Module LoggingFacts.
Import PyStr Http Logging JsonProps PyStrFacts.

Lemma existsb_eqb_In (k : string) (l : list string) :
  existsb (String.eqb k) l = true <-> In k l.
Proof.
  rewrite existsb_exists. split.
  - intros [x [Hin Hx]]. apply String.eqb_eq in Hx. now subst.
  - intros Hin. exists k. split; [exact Hin | apply String.eqb_refl].
Qed.

Lemma distinct_cons (k : string) (l : list string) :
  distinct (k :: l) = true <-> ~ In k l /\ distinct l = true.
Proof.
  simpl. rewrite andb_true_iff, negb_true_iff, <- existsb_eqb_In.
  split; intros [H1 H2]; split; auto.
  - now rewrite H1.
  - now destruct (existsb (String.eqb k) l).
Qed.

Lemma dict_set_fresh (acc : dict) (k : string) (v : json) :
  ~ In k (keys acc) -> dict_set acc k v = acc ++ [(k, v)].
Proof.
  induction acc as [|[k' v'] acc IH]; simpl; intros Hn; [reflexivity|].
  destruct (String.eqb_spec k' k) as [E|E].
  - exfalso. apply Hn. now left.
  - rewrite IH; [reflexivity|]. intros Hin. apply Hn. now right.
Qed.

(** Filling a dict by assignment from items with distinct, fresh keys
    appends one item per assignment, in order. *)
Lemma fold_dict_set (f : string * json -> json) (d acc : dict) :
  distinct (keys d) = true ->
  (forall k, In k (keys d) -> ~ In k (keys acc)) ->
  fold_left (fun m kv => dict_set m (fst kv) (f kv)) d acc
  = acc ++ map (fun kv => (fst kv, f kv)) d.
Proof.
  revert acc; induction d as [|kv d IH]; intros acc Hd Hfresh; simpl.
  - now rewrite app_nil_r.
  - change (keys (kv :: d)) with (fst kv :: keys d) in Hd.
    apply distinct_cons in Hd. destruct Hd as [Hk Hd].
    rewrite dict_set_fresh by (apply Hfresh; now left).
    rewrite IH; [now rewrite <- app_assoc | exact Hd |].
    intros k Hin. unfold keys. rewrite map_app, in_app_iff. simpl.
    intros [H|[H|[]]].
    + apply (Hfresh k); [now right | exact H].
    + subst. contradiction.
Qed.

Lemma fold_left_pointwise {A B : Type} (f g : A -> B -> A) (l : list B) (a : A) :
  (forall x y, f x y = g x y) -> fold_left f l a = fold_left g l a.
Proof.
  intros H. revert a; induction l as [|y l IH]; intros a; simpl; [reflexivity|].
  now rewrite H, IH.
Qed.

(** On a dict with distinct keys the loop of [_mask_sensitive_data] is a
    map over the items. *)
Lemma mask_with_dict (fields : list string) (d : dict) :
  distinct (keys d) = true ->
  mask_with fields (JDict d) = JDict (map (mask_item fields) d).
Proof.
  intros Hd. cbn [mask_with]. f_equal.
  rewrite (fold_left_pointwise _
             (fun m kv => dict_set m (fst kv) (snd (mask_item fields kv)))).
  - rewrite fold_dict_set; [reflexivity | exact Hd | intros k _ []].
  - intros m [k v]. simpl. now destruct (is_sensitive fields k).
Qed.

Lemma keys_mask_items (fields : list string) (d : dict) :
  keys (map (mask_item fields) d) = keys d.
Proof. unfold keys. rewrite map_map. reflexivity. Qed.

Lemma json_ok_dict (d : dict) :
  json_ok (JDict d) = true <->
  distinct (keys d) = true /\ forall kv, In kv d -> json_ok (snd kv) = true.
Proof. cbn [json_ok]. now rewrite andb_true_iff, forallb_forall. Qed.

Lemma json_ok_list (l : list json) :
  json_ok (JList l) = true <-> forall x, In x l -> json_ok x = true.
Proof. cbn [json_ok]. now rewrite forallb_forall. Qed.

Lemma mask_with_ok (fields : list string) (v : json) :
  json_ok v = true -> json_ok (mask_with fields v) = true.
Proof.
  induction v as [|b|n|f|s|l IH|d IH] using json_induction; intros Hok;
    try exact Hok.
  - cbn [mask_with]. apply json_ok_list. intros x Hin.
    apply in_map_iff in Hin. destruct Hin as [y [<- Hy]].
    rewrite Forall_forall in IH. apply IH; [exact Hy|].
    rewrite json_ok_list in Hok. now apply Hok.
  - apply json_ok_dict in Hok. destruct Hok as [Hd Hvals].
    rewrite mask_with_dict by exact Hd. apply json_ok_dict. split.
    + now rewrite keys_mask_items.
    + intros kv Hin. apply in_map_iff in Hin. destruct Hin as [kv0 [<- Hin]].
      unfold mask_item. simpl. destruct (is_sensitive fields (fst kv0)); [reflexivity|].
      rewrite Forall_forall in IH. apply IH; auto.
Qed.




Lemma dict_get_In (d : dict) (k : string) (v : json) :
  distinct (keys d) = true -> In (k, v) d -> dict_get d k = Some v.
Proof.
  induction d as [|[k' v'] d IH]; intros Hd Hin; [contradiction|].
  change (keys ((k', v') :: d)) with (k' :: keys d) in Hd.
  apply distinct_cons in Hd. destruct Hd as [Hk Hd]. simpl.
  destruct Hin as [E|Hin].
  - injection E as -> ->. now rewrite String.eqb_refl.
  - destruct (String.eqb_spec k' k) as [->|_]; [|now apply IH].
    exfalso. apply Hk. unfold keys. apply in_map_iff. now exists (k, v).
Qed.

Lemma mask_items_get (fields : list string) (d : dict) (k : string) (v : json) :
  distinct (keys d) = true -> In (k, v) d ->
  dict_get (map (mask_item fields) d) k
  = Some (if is_sensitive fields k then JStr MASK else mask_with fields v).
Proof.
  intros Hd Hin. apply dict_get_In; [now rewrite keys_mask_items|].
  apply in_map_iff. now exists (k, v).
Qed.

Lemma length_take (n : nat) (s : string) :
  n <= String.length s -> String.length (take n s) = n.
Proof.
  revert s; induction n as [|n IH]; intros [|c s] H; simpl in *; try lia.
  now rewrite IH by lia.
Qed.

Lemma take_take_append (n : nat) (s t : string) :
  n <= String.length s -> take n (take n s ++ t) = take n s.
Proof.
  revert s; induction n as [|n IH]; intros [|c s] H; simpl in *;
    try lia; try reflexivity.
  now rewrite IH by lia.
Qed.

End LoggingFacts.

Module LoggingTheorems.
Import PyStr Http Logging JsonProps LoggingProps PyStrFacts LoggingFacts.




(** C10.  Masking keeps the shape of a JSON value: a value that is neither
    an object nor a list is returned as it is; an object becomes an object
    with the same keys in the same order, a sensitive key carrying the mask
    token and any other key the masked original value; a list becomes the
    list of its masked items, of the same length. *)
Theorem mask_preserves_structure (self : RequestResponseLoggingMiddleware)
    (data : json) :
  json_ok data = true ->
  match data with
  | JDict d =>
      exists d' : dict,
        _mask_sensitive_data self data = JDict d' /\
        keys d' = keys d /\
        List.length d' = List.length d /\
        (forall k, dict_get d' k = None <-> dict_get d k = None) /\
        (forall k v, In (k, v) d ->
           dict_get d' k
           = Some (if is_sensitive (sensitive_fields self) k
                   then JStr MASK else _mask_sensitive_data self v))
  | JList l =>
      _mask_sensitive_data self data = JList (map (_mask_sensitive_data self) l) /\
      List.length (map (_mask_sensitive_data self) l) = List.length l
  | _ => _mask_sensitive_data self data = data
  end.
Proof.
  intros Hok. unfold _mask_sensitive_data. destruct data as [|b|n|f|s|l|d];
    try reflexivity.
  - split; [reflexivity | apply length_map].
  - apply json_ok_dict in Hok. destruct Hok as [Hd _].
    exists (map (mask_item (sensitive_fields self)) d).
    split; [now apply mask_with_dict|].
    split; [apply keys_mask_items|].
    split; [apply length_map|].
    split.
    + intros k. clear Hd. induction d as [|[k' v'] d IH]; simpl; [tauto|].
      destruct (String.eqb k' k); [split; discriminate | exact IH].
    + intros k v Hin. now apply mask_items_get.
Qed.

(** The shape of a masked two-key object. *)
Lemma mask_preserves_structure_witness :
  let self := mkLogging [] [] ["password"] 10000 true false true true in
  let d := [("username", JStr "bob"); ("password", JStr "p@ss")] in
  json_ok (JDict d) = true /\
  exists d' : dict,
    _mask_sensitive_data self (JDict d) = JDict d' /\
    keys d' = keys d /\
    List.length d' = List.length d /\
    (forall k, dict_get d' k = None <-> dict_get d k = None) /\
    (forall k v, In (k, v) d ->
       dict_get d' k
       = Some (if is_sensitive (sensitive_fields self) k
               then JStr MASK else _mask_sensitive_data self v)).
Proof.
  intros self d. split; [reflexivity|].
  apply (mask_preserves_structure self (JDict d)). reflexivity.
Defined.

(** C7.  With a maximum that is a length (not negative): a body longer than
    the maximum is cut to its first [max] characters followed by the marker,
    so the result has [max + len(marker)] characters and starts with the
    first [max] characters of the body; a body of at most [max] characters
    is returned unchanged. *)
Theorem truncate_body_law (self : RequestResponseLoggingMiddleware) (body : string) :
  (0 <= max_body_size self)%Z ->
  let max := Z.to_nat (max_body_size self) in
  (max < String.length body ->
   _truncate_body self body = (take max body ++ TRUNCATED)%string /\
   String.length (_truncate_body self body) = max + String.length TRUNCATED /\
   take max (_truncate_body self body) = take max body) /\
  (String.length body <= max -> _truncate_body self body = body).
Proof.
  intros Hmax max. unfold _truncate_body, slice_to.
  destruct (Z.leb_spec 0 (max_body_size self)) as [_|]; [|lia]. fold max. split.
  - intros Hlen.
    destruct (Z.gtb_spec (Z.of_nat (String.length body)) (max_body_size self)); [|lia].
    split; [reflexivity|]. split.
    + rewrite length_append, length_take by lia. reflexivity.
    + apply take_take_append. lia.
  - intros Hlen.
    destruct (Z.gtb_spec (Z.of_nat (String.length body)) (max_body_size self)); [lia|].
    reflexivity.
Qed.

(** A body of sixteen characters under a maximum of ten. *)
Lemma truncate_body_law_witness :
  let self := mkLogging [] [] [] 10 true false true true in
  (0 <= max_body_size self)%Z /\
  _truncate_body self "0123456789abcdef" = "0123456789... [truncated]" /\
  (10 < String.length "0123456789abcdef" ->
   _truncate_body self "0123456789abcdef" = (take 10 "0123456789abcdef" ++ TRUNCATED)%string /\
   String.length (_truncate_body self "0123456789abcdef") = 10 + String.length TRUNCATED /\
   take 10 (_truncate_body self "0123456789abcdef") = take 10 "0123456789abcdef").
Proof.
  intros self. split; [discriminate|]. split; [reflexivity|].
  apply (truncate_body_law self "0123456789abcdef"). discriminate.
Defined.

(** Under a negative maximum the slice counts from the end of the body, and
    the result is not [max + len(marker)] characters long. *)
Example truncate_body_negative_maximum :
  _truncate_body (mkLogging [] [] [] (-1) true false true true) "abc"
  = "ab... [truncated]".
Proof. reflexivity. Qed.

(** C7, counterexample.  The constructor takes any integer as the maximum.
    With the maximum [-1] the body [abc] is longer than the maximum and is
    cut to [abc[:-1]], so the result [ab... [truncated]] has 17 characters
    and not [-1 + 15]. *)
Lemma truncation_law_fails_for_negative_maximum : ~ truncation_law_as_specified.
Proof.
  intros H.
  destruct (H (mkLogging [] [] [] (-1) true false true true) "abc") as [Hlong _].
  cbv zeta in Hlong. destruct (Hlong eq_refl) as [Hlen _].
  vm_compute in Hlen. discriminate Hlen.
Qed.

(** Every body is longer than a negative maximum: it loses its last [-max]
    characters (all of them when it has no more) and gets the marker. *)
Lemma truncate_body_negative (self : RequestResponseLoggingMiddleware) (body : string) :
  (max_body_size self < 0)%Z ->
  _truncate_body self body
  = (take (String.length body - Z.to_nat (- max_body_size self)) body ++ TRUNCATED)%string.
Proof.
  intros Hneg. unfold _truncate_body, slice_to.
  destruct (Z.gtb_spec (Z.of_nat (String.length body)) (max_body_size self)); [|lia].
  destruct (Z.leb_spec 0 (max_body_size self)); [lia | reflexivity].
Qed.

Lemma is_file_response_iff (response : Response) :
  _is_file_response response = true <->
  class response = FileResponse \/ declared_file response = true.
Proof.
  unfold _is_file_response, declared_file.
  destruct (class response); cbv zeta;
    match goal with
    | |- context [contains ?cd "attachment" || contains ?cd "inline"] =>
        destruct (contains cd "attachment" || contains cd "inline")
    end; simpl; intuition congruence.
Qed.

(** C9, counterexample.  A plain [Response] (neither [JSONResponse] nor
    [FileResponse]) with Content-Type [application/json] and the body [{}]
    declares no file, and its body parses as JSON, but no [isinstance]
    branch of the capture applies: the result is [None]. *)
Lemma capture_ignores_plain_response : ~ capture_keyed_off_metadata.
Proof.
  intros H.
  pose (self := mkLogging [] [] ["password"] 10000 true false true true).
  pose (response := mkResponse OtherResponse 200
                      [("content-type", "application/json")]
                      (list_byte_of_string "{}") None).
  specialize (H loads_empty_object dumps_empty_object decode_bytes self response "{}"
                eq_refl eq_refl eq_refl).
  vm_compute in H. discriminate H.
Qed.

(** C9, as the code has it.  For a response that [_is_file_response] does not
    classify as a file (it is then no [FileResponse], and its headers declare
    no file), with response-body logging on, the capture goes by the class of
    the response: a [JSONResponse] with a non-empty body that decodes gives
    the masked, serialized, truncated JSON when the body parses and the
    truncated text otherwise; a [LoggableJSONResponse] gives the masked,
    serialized, truncated content it was built from, when that is truthy;
    any other class, an empty body or an undecodable body gives nothing. *)
Theorem capture_response_body_by_class
    (json_loads : string -> option json) (json_dumps : json -> string)
    (decode_utf8 : list Byte.byte -> option string)
    (self : RequestResponseLoggingMiddleware) (response : Response) :
  log_response_body self = true ->
  _is_file_response response = false ->
  let capture := _capture_response_body json_loads json_dumps decode_utf8 self response in
  (class response <> FileResponse /\ declared_file response = false) /\
  (class response = JSONResponse ->
     (forall body_str, body response <> [] ->
        decode_utf8 (body response) = Some body_str ->
        capture = Some (match json_loads body_str with
                        | Some json_body =>
                            _truncate_body self
                              (json_dumps (_mask_sensitive_data self json_body))
                        | None => _truncate_body self body_str
                        end)) /\
     (body response = [] \/ decode_utf8 (body response) = None -> capture = None)) /\
  (class response = LoggableJSONResponse ->
     (forall raw_body, body_raw response = Some raw_body -> json_truthy raw_body = true ->
        capture = Some (_truncate_body self
                          (json_dumps (_mask_sensitive_data self raw_body)))) /\
     (forall raw_body, body_raw response = Some raw_body -> json_truthy raw_body = false ->
        capture = None) /\
     (body_raw response = None -> capture = None)) /\
  (class response = OtherResponse -> capture = None).
Proof.
  intros Hlog Hfile capture. subst capture. unfold _capture_response_body.
  rewrite Hlog, Hfile. cbn [negb].
  split.
  - split.
    + intros Hc. assert (_is_file_response response = true) by
        (apply is_file_response_iff; now left). congruence.
    + destruct (declared_file response) eqn:E; [|reflexivity].
      assert (_is_file_response response = true) by
        (apply is_file_response_iff; now right). congruence.
  - split; [|split].
    + intros ->. split.
      * intros body_str Hne Hdec. rewrite Hdec. destruct (body response); [contradiction|].
        now destruct (json_loads body_str).
      * intros [-> | Hdec]; [reflexivity|]. rewrite Hdec. now destruct (body response).
    + intros ->. split; [|split].
      * intros raw_body -> ->. reflexivity.
      * intros raw_body -> ->. reflexivity.
      * intros ->. reflexivity.
    + intros ->. reflexivity.
Qed.

(** A [JSONResponse] with the body [{}]. *)
Lemma capture_response_body_by_class_witness :
  let self := mkLogging [] [] ["password"] 10000 true false true true in
  let response := mkResponse JSONResponse 200 [("content-type", "application/json")]
                    (list_byte_of_string "{}") None in
  (log_response_body self = true /\ _is_file_response response = false) /\
  _capture_response_body loads_empty_object dumps_empty_object decode_bytes self response
  = Some "{}" /\
  (class response <> FileResponse /\ declared_file response = false).
Proof.
  intros self response. split; [split; reflexivity|]. split; [reflexivity|].
  apply (capture_response_body_by_class loads_empty_object dumps_empty_object
           decode_bytes self response eq_refl eq_refl).
Defined.

End LoggingTheorems.

(* ================================================================== *)
(** * AuthGate *)
(* ================================================================== *)

Module AuthFacts.
Import PyStr PathMatcher Http Auth AuthProps PyStrFacts.

Lemma init_result (exclude_paths : option (list string))
    (api_key_cfg : ApiKeyAuthConfig) (jwt_cfg : JwtAuthConfig) :
  result (init exclude_paths api_key_cfg jwt_cfg)
  = mkAuthMiddleware (match exclude_paths with Some l => l | None => [] end)
      api_key_cfg jwt_cfg
      (ak_enabled api_key_cfg && truthy (api_key api_key_cfg))
      (jwt_enabled_cfg jwt_cfg).
Proof.
  unfold init.
  destruct (ak_enabled api_key_cfg), (truthy (api_key api_key_cfg)),
    (jwt_enabled_cfg jwt_cfg); reflexivity.
Qed.

(** §4.2: a path is excluded when it starts with one of the additional
    paths or matches one of the configured patterns. *)
Lemma is_path_excluded_with_result (extra patterns : list string)
    (m1 m2 : string -> string -> message) (path : string) :
  result (is_path_excluded_with extra patterns m1 m2 path)
  = existsb (fun exclude_path => startswith path exclude_path) extra
    || existsb (fun pattern => path_match path pattern) patterns.
Proof.
  unfold is_path_excluded_with.
  assert (Hfind : forall (f : string -> bool) l,
             existsb f l = match find f l with Some _ => true | None => false end).
  { intros f l. induction l as [|x l IH]; simpl; [reflexivity|].
    destruct (f x); [reflexivity | exact IH]. }
  rewrite (Hfind _ extra), (Hfind _ patterns).
  destruct (find _ extra); [reflexivity|]. now destruct (find _ patterns).
Qed.

(** The exclusion check leaves a debug record only when it finds a match. *)
Lemma is_path_excluded_with_false (extra patterns : list string)
    (m1 m2 : string -> string -> message) (path : string) :
  result (is_path_excluded_with extra patterns m1 m2 path) = false ->
  is_path_excluded_with extra patterns m1 m2 path = (false, []).
Proof.
  unfold is_path_excluded_with.
  destruct (find _ extra); [discriminate|].
  destruct (find _ patterns); [discriminate | reflexivity].
Qed.

Lemma is_path_excluded_with_true (extra patterns : list string)
    (m1 m2 : string -> string -> message) (path : string) :
  result (is_path_excluded_with extra patterns m1 m2 path) = true ->
  exists t, is_path_excluded_with extra patterns m1 m2 path = (true, t).
Proof.
  intros H. destruct (is_path_excluded_with extra patterns m1 m2 path) as [b t].
  simpl in H. subst. now exists t.
Qed.

Lemma slice_from_append (p k : string) :
  slice_from (p ++ k) (String.length p) = k.
Proof. unfold slice_from. induction p as [|a p IH]; [now destruct k | exact IH]. Qed.

(** C4.  On a gate built by [__init__] with API-key authentication in force,
    for a path that is not excluded from it and a header made of the
    configured prefix followed by a presented key: when the presented key is
    the configured key the request goes on to the next stage, unchanged;
    otherwise the answer is a 401 without [WWW-Authenticate], the detail
    being [InvalidApiKey] for every non-empty header.  In both cases the
    trace holds a single log record: the token verifier is not called and
    the token settings are not consulted, whatever they are. *)
Theorem api_key_decision_is_final
    (get_token_data : string -> dict + string)
    (exclude_paths : option (list string))
    (api_key_cfg : ApiKeyAuthConfig) (jwt_cfg : JwtAuthConfig)
    (request : Request) (presented : string) :
  let self := result (init exclude_paths api_key_cfg jwt_cfg) in
  let path := url_path (url request) in
  let authorization := (prefix api_key_cfg ++ presented)%string in
  api_key_enabled self = true ->
  result (is_path_excluded_apikey self path) = false ->
  headers_get (headers request) "Authorization" = Some authorization ->
  (api_key api_key_cfg = Some presented ->
   dispatch get_token_data self request
   = (CallNext request, [Log DEBUG (ApiKeyOk path)])) /\
  (api_key api_key_cfg <> Some presented ->
   exists (d : detail) (m : message),
     dispatch get_token_data self request
     = (Respond (mkJSONResponse 401 d []), [Log WARNING m]) /\
     (authorization <> EmptyString -> d = InvalidApiKey /\ m = ApiKeyWrong path)).
Proof.
  intros self path authorization Hen Hex Hhdr.
  assert (Hpre : startswith authorization (prefix api_key_cfg) = true)
    by apply startswith_append.
  assert (Hkey' : slice_from authorization (String.length (prefix api_key_cfg)) = presented)
    by apply slice_from_append.
  subst self path. rewrite init_result in *. cbn [api_key_enabled] in Hen.
  apply andb_true_iff in Hen. destruct Hen as [Hflag Hkey].
  unfold is_path_excluded_apikey in Hex.
  apply is_path_excluded_with_false in Hex.
  unfold dispatch, and_not, is_path_excluded_apikey.
  cbn [api_key_enabled jwt_enabled api_key_settings jwt_settings
       additional_exclude_paths] in *.
  rewrite Hflag, Hkey, Hhdr, Hex.
  destruct (api_key api_key_cfg) as [k|] eqn:Ek; [|discriminate].
  destruct authorization as [|a rest] eqn:Ea.
  - (* an empty header counts as no header *)
    split.
    + intros E. injection E as E. subst k.
      destruct (prefix api_key_cfg); [|discriminate Ea].
      simpl in Ea. subst presented. simpl in Hkey. discriminate.
    + intros _. exists CredentialRequired, (ApiKeyNoHeader (url_path (url request))).
      split; [reflexivity | intros E; contradiction].
  - cbn [truthy negb andb orb]. cbn [bind ret log app fst snd negb andb].
    rewrite Hpre. cbn [andb]. rewrite Hkey'. split.
    + intros E. injection E as E. rewrite <- E, String.eqb_refl. reflexivity.
    + intros Hne. exists InvalidApiKey, (ApiKeyWrong (url_path (url request))).
      destruct (String.eqb_spec presented k) as [E|E]; [subst; contradiction|].
      split; [reflexivity | intros _; split; reflexivity].
Qed.

(** Both schemes in force on [/api/items]: the right key goes through
    although the verifier would refuse every token, and a wrong key is
    answered 401 although the verifier would accept every token. *)
Lemma api_key_decision_is_final_witness :
  let self := result (init None scenario_api_key scenario_jwt_on) in
  let right := get_request "/api/items" [("authorization", "ApiKey secret123")] in
  let wrong := get_request "/api/items" [("authorization", "ApiKey wrong")] in
  (api_key_enabled self = true /\ jwt_enabled self = true /\
   result (is_path_excluded_apikey self "/api/items") = false /\
   headers_get (headers right) "Authorization" = Some "ApiKey secret123" /\
   headers_get (headers wrong) "Authorization" = Some "ApiKey wrong") /\
  dispatch (fun _ => inr "invalid") self right
  = (CallNext right, [Log DEBUG (ApiKeyOk "/api/items")]) /\
  exists (d : detail) (m : message),
    dispatch (fun _ => inl []) self wrong
    = (Respond (mkJSONResponse 401 d []), [Log WARNING m]) /\
    ("ApiKey wrong" <> EmptyString -> d = InvalidApiKey /\ m = ApiKeyWrong "/api/items").
Proof.
  intros self right wrong. split; [repeat split|]. split.
  - apply (api_key_decision_is_final (fun _ => inr "invalid") None scenario_api_key
             scenario_jwt_on right "secret123" eq_refl eq_refl eq_refl).
    reflexivity.
  - apply (api_key_decision_is_final (fun _ => inl []) None scenario_api_key
             scenario_jwt_on wrong "wrong" eq_refl eq_refl eq_refl).
    discriminate.
Defined.



(** What the gate does with a present header on a path that is excluded
    from every scheme in force: neither scheme block applies, and the
    if/elif chain that follows always answers 401, so the final
    [call_next] of [dispatch] is never reached. *)
Lemma excluded_path_with_header_is_rejected
    (get_token_data : string -> dict + string)
    (self : AuthMiddleware) (request : Request) :
  api_key_enabled self || jwt_enabled self = true ->
  truthy (headers_get (headers request) "Authorization") = true ->
  excluded_from_enabled_schemes self (url_path (url request)) ->
  exists (d : detail) (h : list (string * string)),
    result (dispatch get_token_data self request)
    = Respond (mkJSONResponse 401 d h).
Proof.
  intros Hon Hhdr [Hk Hj]. unfold dispatch, and_not.
  rewrite Hhdr. cbn [negb].
  unfold is_path_excluded_apikey, is_path_excluded_jwt in *.
  destruct (api_key_enabled self) eqn:Ek, (jwt_enabled self) eqn:Ej;
    try discriminate; cbn [negb andb];
    try (destruct (is_path_excluded_with_true _ _ _ _ _ (Hk eq_refl)) as [t1 ->]);
    try (destruct (is_path_excluded_with_true _ _ _ _ _ (Hj eq_refl)) as [t2 ->]);
    cbn; eauto.
Qed.

(** C1, at the failing input.  API-key authentication alone is in force and
    [/health/**] is excluded from it.  Without a header the request to
    [/health] goes on to the next stage; with the header [Basic abc] (or
    even with the right key) the same request is answered 401. *)
Theorem excluded_path_rejected_when_header_present
    (get_token_data : string -> dict + string) :
  excluded_from_enabled_schemes scenario_gate "/health" /\
  result (dispatch get_token_data scenario_gate (get_request "/health" []))
  = CallNext (get_request "/health" []) /\
  result (dispatch get_token_data scenario_gate
            (get_request "/health" [("authorization", "Basic abc")]))
  = Respond (mkJSONResponse 401 (WrongFormatApiKey "ApiKey") []) /\
  result (dispatch get_token_data scenario_gate
            (get_request "/health" [("authorization", "ApiKey secret123")]))
  = Respond (mkJSONResponse 401 (WrongFormatApiKey "ApiKey") []).
Proof.
  split; [split; [reflexivity | discriminate] | repeat split].
Qed.

End AuthFacts.

(* ================================================================== *)
(** * TrailingSlashNormalizer *)
(* ================================================================== *)

Module TrailingSlashFacts.
Import PyStr Http TrailingSlash TrailingSlashProps PyStrFacts.

Lemma endswith_char_cons (a c : ascii) (s : string) :
  endswith (String a s) (String c EmptyString)
  = match s with
    | EmptyString => Ascii.eqb a c
    | _ => endswith s (String c EmptyString)
    end.
Proof.
  rewrite endswith_unfold. simpl. destruct s as [|b s].
  - now destruct (Ascii.eqb a c).
  - destruct (Ascii.eqb a c); reflexivity.
Qed.

(** [rstrip] removes a run of the character at the end, and nothing else. *)
Lemma rstrip_decomp (s : string) (c : ascii) :
  exists n : nat, s = (rstrip s c ++ replicate n c)%string.
Proof.
  unfold rstrip. induction s as [|a s [n IH]].
  - now exists 0.
  - simpl. destruct (rstrip_by (Ascii.eqb c) s) as [|b r].
    + simpl in IH. destruct (Ascii.eqb_spec c a) as [->|_].
      * exists (S n). simpl. now rewrite <- IH.
      * exists n. simpl. now rewrite <- IH.
    + exists n. simpl. now rewrite IH at 1.
Qed.

Lemma rstrip_not_endswith (s : string) (c : ascii) :
  endswith (rstrip s c) (String c EmptyString) = false.
Proof.
  unfold rstrip. induction s as [|a s IH]; [reflexivity|].
  simpl. destruct (rstrip_by (Ascii.eqb c) s) as [|b r].
  - destruct (Ascii.eqb_spec c a) as [->|Hne]; [reflexivity|].
    rewrite endswith_char_cons. apply Ascii.eqb_neq. congruence.
  - rewrite endswith_char_cons. exact IH.
Qed.

Lemma rstrip_snoc (s : string) (c : ascii) :
  rstrip (s ++ String c EmptyString) c = rstrip s c.
Proof.
  unfold rstrip. induction s as [|a s IH]; simpl.
  - now rewrite Ascii.eqb_refl.
  - now rewrite IH.
Qed.

Lemma rstrip_fixed (s : string) (c : ascii) :
  endswith s (String c EmptyString) = false -> rstrip s c = s.
Proof.
  unfold rstrip. induction s as [|a s IH]; [reflexivity|].
  rewrite endswith_char_cons. simpl. destruct s as [|b s].
  - intros H. simpl. rewrite Ascii.eqb_sym, H. reflexivity.
  - intros H. rewrite (IH H). reflexivity.
Qed.

(** C8, counterexample.  [/api/users//] ends in two slashes; [rstrip]
    removes both, so the normalized path [/api/users] is not the path
    without its final character. *)
Lemma rstrip_removes_every_trailing_slash : ~ strips_exactly_one_slash.
Proof.
  intros H. specialize (H "/api/users//"). vm_compute in H.
  assert (E : "/api/users/" = "/api/users//") by (apply H; [discriminate | reflexivity]).
  discriminate E.
Qed.

(** C8, as the code has it.  For a path other than [/] that ends in a slash,
    the normalized path is the path without its whole run of trailing
    slashes (one at least; it does not end in a slash, and it is the path
    without its final character when the path ends in a single slash).  In
    internal mode the request goes on to the next stage with this routing
    path and the URL it came with; in redirect mode the answer is a 301 to
    the URL with the normalized path, and the next stage is not called. *)
Theorem trailing_slash_dispatch (self : TrailingSlashMiddleware) (request : Request) :
  let path := url_path (url request) in
  let normalized := normalized_path path in
  path <> "/" -> endswith path "/" = true ->
  (exists n : nat, path = (normalized ++ replicate (S n) "/")%string) /\
  endswith normalized "/" = false /\
  (forall p : string,
      path = (p ++ "/")%string -> endswith p "/" = false -> normalized = p) /\
  (redirect self = false ->
   dispatch self request
   = CallNext (mkRequest (url request) normalized (headers request)
                 (state_user request) (state_token_data request))) /\
  (redirect self = true ->
   dispatch self request
   = RedirectResponse (url_replace_path (url request) normalized) 301).
Proof.
  intros path normalized Hne Hend. subst normalized. unfold normalized_path.
  assert (Hcond : negb (String.eqb path "/") && endswith path "/" = true).
  { rewrite Hend. apply String.eqb_neq in Hne. now rewrite Hne. }
  split; [|split; [|split; [|split]]].
  - destruct (rstrip_decomp path "/") as [[|n] Hn].
    + exfalso. simpl in Hn. rewrite append_nil_r in Hn.
      pose proof (rstrip_not_endswith path "/") as Hno.
      rewrite <- Hn in Hno. congruence.
    + now exists n.
  - apply rstrip_not_endswith.
  - intros p Hp Hno. rewrite Hp, rstrip_snoc. now apply rstrip_fixed.
  - intros Hr. unfold dispatch. fold path. rewrite Hcond, Hr. reflexivity.
  - intros Hr. unfold dispatch. fold path. rewrite Hcond, Hr. reflexivity.
Qed.

(** Scenario 5 of the specification: [/api/users/] in internal mode. *)
Lemma trailing_slash_dispatch_witness :
  let request := mkRequest (mkURL "http" "testserver" "/api/users/" EmptyString)
                   "/api/users/" [] None None in
  ("/api/users/" <> "/" /\ endswith "/api/users/" "/" = true) /\
  dispatch (mkTrailingSlash false) request
  = CallNext (mkRequest (url request) "/api/users" [] None None) /\
  (exists n : nat,
      "/api/users/" = (normalized_path "/api/users/" ++ replicate (S n) "/")%string).
Proof.
  intros request. split; [split; [discriminate | reflexivity]|].
  split; [reflexivity|].
  apply (trailing_slash_dispatch (mkTrailingSlash false) request);
    [discriminate | reflexivity].
Defined.

End TrailingSlashFacts.

(* ================================================================== *)
(** * AuthGate: the remaining branches of [dispatch] *)
(* ================================================================== *)

Module AuthGateFacts.
Import PyStr PathMatcher Http Auth AuthProps AuthMore PyStrFacts.

Lemma result_bind {A B : Type} (m : Traced A) (f : A -> Traced B) :
  result (bind m f) = result (f (result m)).
Proof. unfold bind, result. destruct m as [a t]. simpl. now destruct (f a). Qed.

Lemma trace_bind {A B : Type} (m : Traced A) (f : A -> Traced B) :
  trace (bind m f) = trace m ++ trace (f (result m)).
Proof. unfold bind, result, trace. destruct m as [a t]. simpl. now destruct (f a). Qed.

Lemma result_and_not (a : bool) (m : Traced bool) :
  result (and_not a m) = a && negb (result m).
Proof. unfold and_not. destruct a; [now rewrite result_bind | reflexivity]. Qed.

Lemma find_some_iff {A : Type} (f : A -> bool) (l : list A) :
  (exists x, find f l = Some x) <-> exists x, In x l /\ f x = true.
Proof.
  split.
  - intros [x Hx]. exists x. now apply find_some in Hx.
  - intros [x [Hin Hf]]. destruct (find f l) as [y|] eqn:E; [now exists y|].
    now rewrite (find_none _ _ E x Hin) in Hf.
Qed.

Lemma is_path_excluded_with_iff (extra patterns : list string)
    (m1 m2 : string -> string -> message) (path : string) :
  result (is_path_excluded_with extra patterns m1 m2 path) = true <->
  (exists exclude_path, In exclude_path extra /\ startswith path exclude_path = true) \/
  (exists pattern, In pattern patterns /\ path_match path pattern = true).
Proof.
  rewrite <- !find_some_iff. unfold is_path_excluded_with.
  destruct (find _ extra) as [e|]; [split; [intros _; left; now exists e | reflexivity]|].
  destruct (find _ patterns) as [p|].
  - split; [intros _; right; now exists p | reflexivity].
  - split; [discriminate | intros [[x Hx]|[x Hx]]; discriminate].
Qed.

Lemma is_path_excluded_with_trace (extra patterns : list string)
    (m1 m2 : string -> string -> message) (path : string) :
  List.length (trace (is_path_excluded_with extra patterns m1 m2 path))
  = if result (is_path_excluded_with extra patterns m1 m2 path) then 1 else 0.
Proof.
  unfold is_path_excluded_with.
  destruct (find _ extra); [reflexivity|]. now destruct (find _ patterns).
Qed.

(** X1.  A path is excluded from a scheme exactly when it starts with one of
    the additional exclude paths of the constructor (a prefix test, not an
    equality) or matches one of the scheme's configured patterns.  The
    additional paths count for both schemes alike, and the check logs one
    debug record when it finds a match and none otherwise. *)
Theorem is_path_excluded_meaning (self : AuthMiddleware) (path : string) :
  (result (is_path_excluded_apikey self path) = true <->
     (exists exclude_path tail,
         In exclude_path (additional_exclude_paths self) /\
         path = (exclude_path ++ tail)%string) \/
     (exists pattern,
         In pattern (ak_exclude_patterns (api_key_settings self)) /\
         path_match path pattern = true)) /\
  (result (is_path_excluded_jwt self path) = true <->
     (exists exclude_path tail,
         In exclude_path (additional_exclude_paths self) /\
         path = (exclude_path ++ tail)%string) \/
     (exists pattern,
         In pattern (jwt_exclude_patterns (jwt_settings self)) /\
         path_match path pattern = true)) /\
  List.length (trace (is_path_excluded_apikey self path))
  = (if result (is_path_excluded_apikey self path) then 1 else 0) /\
  List.length (trace (is_path_excluded_jwt self path))
  = (if result (is_path_excluded_jwt self path) then 1 else 0).
Proof.
  assert (Hpre : forall l : list string,
             (exists e, In e l /\ startswith path e = true) <->
             (exists e tail, In e l /\ path = (e ++ tail)%string)).
  { intros l. split.
    - intros [e [Hin Hs]]. apply startswith_iff in Hs. destruct Hs as [t Ht]. now exists e, t.
    - intros [e [t [Hin Ht]]]. exists e. split; [exact Hin|]. apply startswith_iff. now exists t. }
  unfold is_path_excluded_apikey, is_path_excluded_jwt.
  repeat split; try (apply is_path_excluded_with_trace);
    rewrite is_path_excluded_with_iff, Hpre; tauto.
Qed.

(** The answer of [dispatch] without its trace. *)
Lemma dispatch_result (get_token_data : string -> dict + string)
    (self : AuthMiddleware) (request : Request) :
  let path := url_path (url request) in
  let header := headers_get (headers request) "Authorization" in
  let authorization := match header with Some a => a | None => EmptyString end in
  let check_key := api_key_enabled self && negb (result (is_path_excluded_apikey self path)) in
  let check_jwt := jwt_enabled self && negb (result (is_path_excluded_jwt self path)) in
  result (dispatch get_token_data self request)
  = if negb (api_key_enabled self) && negb (jwt_enabled self) then CallNext request
    else if negb (truthy header) then
      if check_key then Respond (mkJSONResponse 401 CredentialRequired [])
      else if check_jwt
           then Respond (mkJSONResponse 401 CredentialRequired www_authenticate_bearer)
           else CallNext request
    else if check_key && startswith authorization (prefix (api_key_settings self)) then
      if match api_key (api_key_settings self) with
         | Some k =>
             String.eqb
               (slice_from authorization (String.length (prefix (api_key_settings self)))) k
         | None => false
         end
      then CallNext request
      else Respond (mkJSONResponse 401 InvalidApiKey [])
    else if check_jwt && startswith authorization "Bearer " then
      match get_token_data (slice_from authorization 7) with
      | inl token_data => CallNext (with_identity request token_data)
      | inr e_detail =>
          Respond (mkJSONResponse 401 (TokenRejected e_detail) www_authenticate_bearer)
      end
    else if api_key_enabled self && jwt_enabled self
         then Respond (mkJSONResponse 401 WrongFormatBoth www_authenticate_bearer)
    else if api_key_enabled self
         then Respond (mkJSONResponse 401
                         (WrongFormatApiKey (strip (prefix (api_key_settings self)))) [])
    else Respond (mkJSONResponse 401 WrongFormatBearer www_authenticate_bearer).
Proof.
  intros path header authorization check_key check_jwt.
  unfold dispatch. fold path header authorization.
  destruct (negb (api_key_enabled self) && negb (jwt_enabled self)) eqn:Eoff;
    [reflexivity|].
  destruct (negb (truthy header)).
  - rewrite result_bind, result_and_not. fold check_key.
    destruct check_key; [now rewrite result_bind|].
    rewrite result_bind, result_and_not. fold check_jwt.
    destruct check_jwt; [now rewrite result_bind | reflexivity].
  - rewrite result_bind, result_and_not. fold check_key.
    destruct (check_key && startswith authorization (prefix (api_key_settings self))).
    + destruct (match api_key (api_key_settings self) with
                | Some k => _ | None => false end); now rewrite result_bind.
    + rewrite result_bind, result_and_not. fold check_jwt.
      destruct (check_jwt && startswith authorization "Bearer ").
      * rewrite result_bind. change (String.length "Bearer ") with 7.
        destruct (get_token_data (slice_from authorization 7)); now rewrite result_bind.
      * destruct (api_key_enabled self), (jwt_enabled self);
          try (simpl in Eoff; discriminate Eoff); cbn [andb]; now rewrite result_bind.
Qed.

(** X2.  The gate hands a request to the next stage only for one of four
    reasons: no scheme is in force; the header is missing or empty and the
    path is excluded from every scheme in force; the header carries the
    configured prefix followed by exactly the configured key, on a path
    under API-key authentication; or the header is a [Bearer] header whose
    token the verifier accepted, on a path under token authentication.  The
    request goes on unchanged, except that a verified token adds the
    payload and its [sub] entry to the request state. *)
Theorem dispatch_forwards_only_authorized
    (get_token_data : string -> dict + string)
    (self : AuthMiddleware) (request forwarded : Request) :
  result (dispatch get_token_data self request) = CallNext forwarded ->
  let path := url_path (url request) in
  let header := headers_get (headers request) "Authorization" in
  (api_key_enabled self = false /\ jwt_enabled self = false /\ forwarded = request) \/
  (truthy header = false /\ excluded_from_enabled_schemes self path /\
   forwarded = request) \/
  (exists a : string,
      header = Some a /\ api_key_enabled self = true /\
      result (is_path_excluded_apikey self path) = false /\
      startswith a (prefix (api_key_settings self)) = true /\
      api_key (api_key_settings self)
      = Some (slice_from a (String.length (prefix (api_key_settings self)))) /\
      forwarded = request) \/
  (exists (a : string) (token_data : dict),
      header = Some a /\ jwt_enabled self = true /\
      result (is_path_excluded_jwt self path) = false /\
      startswith a "Bearer " = true /\
      get_token_data (slice_from a 7) = inl token_data /\
      forwarded = with_identity request token_data).
Proof.
  intros H path header. rewrite dispatch_result in H. cbv zeta in H.
  fold path header in H.
  destruct (api_key_enabled self) eqn:Ek, (jwt_enabled self) eqn:Ej;
    cbn [negb andb] in H;
    destruct (result (is_path_excluded_apikey self path)) eqn:Xk;
    destruct (result (is_path_excluded_jwt self path)) eqn:Xj;
    cbn [negb andb] in H;
    try (injection H as <-; left; now repeat split);
    destruct header as [[|c a]|] eqn:Eh; cbn [truthy negb andb] in H;
    try discriminate H;
    try (injection H as <-; right; left; repeat split; congruence);
    right; right.
  all: repeat match type of H with
         | context [startswith ?x ?p] => destruct (startswith x p) eqn:?
         | context [match api_key ?c with _ => _ end] => destruct (api_key c) eqn:?
         | context [String.eqb ?x ?y] => destruct (String.eqb_spec x y)
         | context [match ?x with inl _ => _ | inr _ => _ end] => destruct x eqn:?
         end; cbn [negb andb] in H; try discriminate H; injection H as <-.
  all: first
         [ left; eexists; repeat split; try eassumption; try reflexivity; congruence
         | right; eexists; eexists; repeat split; try eassumption; reflexivity ].
Qed.

(** The forwarded request of the scenario with the right key. *)
Lemma dispatch_forwards_only_authorized_witness :
  let request := get_request "/api/items" [("authorization", "ApiKey secret123")] in
  result (dispatch (fun _ => inr "invalid") scenario_gate request) = CallNext request /\
  ((api_key_enabled scenario_gate = false /\ jwt_enabled scenario_gate = false /\
    request = request) \/
   (truthy (headers_get (headers request) "Authorization") = false /\
    excluded_from_enabled_schemes scenario_gate "/api/items" /\ request = request) \/
   (exists a : string,
       headers_get (headers request) "Authorization" = Some a /\
       api_key_enabled scenario_gate = true /\
       result (is_path_excluded_apikey scenario_gate "/api/items") = false /\
       startswith a (prefix (api_key_settings scenario_gate)) = true /\
       api_key (api_key_settings scenario_gate)
       = Some (slice_from a (String.length (prefix (api_key_settings scenario_gate)))) /\
       request = request) \/
   (exists (a : string) (token_data : dict),
       headers_get (headers request) "Authorization" = Some a /\
       jwt_enabled scenario_gate = true /\
       result (is_path_excluded_jwt scenario_gate "/api/items") = false /\
       startswith a "Bearer " = true /\
       (fun _ : string => @inr dict string "invalid") (slice_from a 7) = inl token_data /\
       request = with_identity request token_data)).
Proof.
  intros request. split; [reflexivity|].
  exact (dispatch_forwards_only_authorized (fun _ => inr "invalid") scenario_gate
           request request eq_refl).
Defined.

(** X3.  Whatever the gate answers itself is a 401; it carries either no
    extra header or the single header [WWW-Authenticate: Bearer], the latter
    only with token authentication in force; the detail is "credential
    required" exactly when the [Authorization] header is missing or empty. *)
Theorem rejection_shape
    (get_token_data : string -> dict + string)
    (self : AuthMiddleware) (request : Request) (response : JSONResponse) :
  result (dispatch get_token_data self request) = Respond response ->
  status_code response = 401%Z /\
  (response_headers response = [] \/
   (response_headers response = www_authenticate_bearer /\ jwt_enabled self = true)) /\
  (content_detail response = CredentialRequired <->
   truthy (headers_get (headers request) "Authorization") = false) /\
  (api_key_enabled self = true \/ jwt_enabled self = true).
Proof.
  intros H. rewrite dispatch_result in H. cbv zeta in H.
  destruct (api_key_enabled self) eqn:Ek, (jwt_enabled self) eqn:Ej;
    cbn [negb andb] in H; try discriminate H;
    destruct (truthy (headers_get (headers request) "Authorization")) eqn:Et;
    cbn [negb andb] in H.
  all: repeat match type of H with
         | context [negb (result ?m)] => destruct (result m) eqn:?
         | context [startswith ?x ?p] => destruct (startswith x p) eqn:?
         | context [match api_key ?c with _ => _ end] => destruct (api_key c) eqn:?
         | context [String.eqb ?x ?y] => destruct (String.eqb_spec x y)
         | context [match ?x with inl _ => _ | inr _ => _ end] => destruct x eqn:?
         end; cbn [negb andb] in H; try discriminate H; injection H as <-.
  all: cbn [status_code response_headers content_detail];
    repeat split; auto; try discriminate; try (intros; discriminate).
Qed.

(** The answer to the scenario request with a wrong key. *)
Lemma rejection_shape_witness :
  let request := get_request "/api/items" [("authorization", "ApiKey wrong")] in
  let response := mkJSONResponse 401 InvalidApiKey [] in
  result (dispatch (fun _ => inr "invalid") scenario_gate request) = Respond response /\
  status_code response = 401%Z /\
  (response_headers response = [] \/
   (response_headers response = www_authenticate_bearer /\
    jwt_enabled scenario_gate = true)).
Proof.
  intros request response. split; [reflexivity|].
  split; apply (rejection_shape (fun _ => inr "invalid") scenario_gate request response
                  eq_refl).
Defined.

Lemma token_calls_bind {A B : Type} (m : Traced A) (f : A -> Traced B) :
  filter is_token_call (trace (bind m f))
  = filter is_token_call (trace m) ++ filter is_token_call (trace (f (result m))).
Proof. now rewrite trace_bind, filter_app. Qed.

Lemma token_calls_excluded (extra patterns : list string)
    (m1 m2 : string -> string -> message) (path : string) :
  filter is_token_call (trace (is_path_excluded_with extra patterns m1 m2 path)) = [].
Proof.
  unfold is_path_excluded_with.
  destruct (find _ extra); [reflexivity|]. now destruct (find _ patterns).
Qed.

Lemma token_calls_and_not (a : bool) (m : Traced bool) :
  filter is_token_call (trace m) = [] ->
  filter is_token_call (trace (and_not a m)) = [].
Proof.
  intros H. unfold and_not. destruct a; [|reflexivity].
  now rewrite token_calls_bind, H.
Qed.

(** The calls to the verifier in a run of [dispatch]. *)
Lemma token_calls_dispatch (get_token_data : string -> dict + string)
    (self : AuthMiddleware) (request : Request) :
  let path := url_path (url request) in
  let header := headers_get (headers request) "Authorization" in
  let authorization := match header with Some a => a | None => EmptyString end in
  let check_key := api_key_enabled self && negb (result (is_path_excluded_apikey self path)) in
  let check_jwt := jwt_enabled self && negb (result (is_path_excluded_jwt self path)) in
  filter is_token_call (trace (dispatch get_token_data self request))
  = if (api_key_enabled self || jwt_enabled self) && truthy header
       && negb (check_key && startswith authorization (prefix (api_key_settings self)))
       && (check_jwt && startswith authorization "Bearer ")
    then [GetTokenData (slice_from authorization 7)]
    else [].
Proof.
  intros path header authorization check_key check_jwt.
  assert (Hk : forall a p, filter is_token_call
                 (trace (and_not a (is_path_excluded_apikey self p))) = [])
    by (intros a p; apply token_calls_and_not, token_calls_excluded).
  assert (Hj : forall a p, filter is_token_call
                 (trace (and_not a (is_path_excluded_jwt self p))) = [])
    by (intros a p; apply token_calls_and_not, token_calls_excluded).
  subst check_key check_jwt authorization header path.
  set (a := match headers_get (headers request) "Authorization" with
            | Some a => a
            | None => EmptyString
            end).
  unfold dispatch. cbv zeta. fold a. change (String.length "Bearer ") with 7.
  destruct (result (is_path_excluded_apikey self (url_path (url request)))) eqn:Xk;
    destruct (result (is_path_excluded_jwt self (url_path (url request)))) eqn:Xj;
    destruct (startswith a (prefix (api_key_settings self))) eqn:Sp;
    destruct (startswith a "Bearer ") eqn:Sb;
    destruct (api_key_enabled self), (jwt_enabled self);
    cbn [negb andb orb]; try reflexivity;
    destruct (truthy (headers_get (headers request) "Authorization"));
    cbn [negb andb];
    repeat first
      [ rewrite token_calls_bind
      | rewrite result_and_not
      | rewrite Hk
      | rewrite Hj
      | rewrite Xk
      | rewrite Xj
      | rewrite Sp
      | rewrite Sb
      | progress cbn [app andb negb orb] ];
    try reflexivity;
    repeat match goal with
      | |- context [match api_key ?c with _ => _ end] => destruct (api_key c)
      | |- context [String.eqb ?x ?y] => destruct (String.eqb x y)
      | |- context [match ?x with inl _ => _ | inr _ => _ end] => destruct x
      end;
    repeat first [ rewrite token_calls_bind | progress cbn [app andb negb orb] ];
    reflexivity.
Qed.

(** X4.  A run of [dispatch] calls the token verifier at most once.  When it
    does, token authentication is in force, the path is not excluded from
    it, the header starts with [Bearer ] and the verifier is given exactly
    the text after these seven characters; and the API-key block has not
    taken the header (API-key authentication off, or the path excluded from
    it, or the header without the configured prefix). *)
Theorem token_verifier_calls
    (get_token_data : string -> dict + string)
    (self : AuthMiddleware) (request : Request) :
  let path := url_path (url request) in
  let run := dispatch get_token_data self request in
  List.length (filter is_token_call (trace run)) <= 1 /\
  (forall token : string,
      In (GetTokenData token) (trace run) ->
      jwt_enabled self = true /\
      result (is_path_excluded_jwt self path) = false /\
      exists a : string,
        headers_get (headers request) "Authorization" = Some a /\
        startswith a "Bearer " = true /\
        token = slice_from a 7 /\
        api_key_enabled self && negb (result (is_path_excluded_apikey self path))
        && startswith a (prefix (api_key_settings self)) = false).
Proof.
  intros path run. subst run.
  pose proof (token_calls_dispatch get_token_data self request) as Hc.
  cbv zeta in Hc. fold path in Hc. split.
  - rewrite Hc. match goal with |- context [if ?c then _ else _] => destruct c end;
      simpl; lia.
  - intros token Hin.
    assert (Hf : In (GetTokenData token)
                   (filter is_token_call (trace (dispatch get_token_data self request))))
      by (apply filter_In; split; [exact Hin | reflexivity]).
    rewrite Hc in Hf.
    match type of Hf with context [if ?c then _ else _] => destruct c eqn:Ec end;
      [|contradiction].
    destruct Hf as [Hf|[]]. injection Hf as <-.
    repeat (apply andb_true_iff in Ec; destruct Ec as [Ec ?]).
    destruct (headers_get (headers request) "Authorization") as [a|]; [|discriminate].
    repeat match goal with
           | H : _ && _ = true |- _ => apply andb_true_iff in H; destruct H
           | H : negb _ = true |- _ => apply negb_true_iff in H
           end.
    repeat split; try assumption. exists a. repeat split; assumption.
Qed.

(** X5.  A [Bearer] header on a path under token authentication, when the
    API-key block does not take the header: the gate asks the verifier about
    the text after [Bearer ], once.  An accepted token sends the request on
    with the payload in [request.state.token_data] and its [sub] entry in
    [request.state.user], the URL, routing path and headers untouched; a
    refused token is answered 401 with the verifier's detail and
    [WWW-Authenticate: Bearer]. *)
Theorem bearer_token_outcome
    (get_token_data : string -> dict + string)
    (self : AuthMiddleware) (request : Request) (a : string) :
  let path := url_path (url request) in
  headers_get (headers request) "Authorization" = Some a ->
  startswith a "Bearer " = true ->
  jwt_enabled self = true ->
  result (is_path_excluded_jwt self path) = false ->
  api_key_enabled self && negb (result (is_path_excluded_apikey self path))
  && startswith a (prefix (api_key_settings self)) = false ->
  result (dispatch get_token_data self request)
  = match get_token_data (slice_from a 7) with
    | inl token_data => CallNext (with_identity request token_data)
    | inr e_detail =>
        Respond (mkJSONResponse 401 (TokenRejected e_detail) www_authenticate_bearer)
    end /\
  filter is_token_call (trace (dispatch get_token_data self request))
  = [GetTokenData (slice_from a 7)] /\
  (forall token_data, get_token_data (slice_from a 7) = inl token_data ->
     exists forwarded,
       result (dispatch get_token_data self request) = CallNext forwarded /\
       state_user forwarded = dict_get token_data "sub" /\
       state_token_data forwarded = Some token_data /\
       url forwarded = url request /\ scope_path forwarded = scope_path request /\
       headers forwarded = headers request).
Proof.
  intros path Hh Hb Hj Hx Hk.
  assert (Ht : truthy (Some a) = true) by (destruct a; [discriminate Hb | reflexivity]).
  assert (Hr : result (dispatch get_token_data self request)
               = match get_token_data (slice_from a 7) with
                 | inl token_data => CallNext (with_identity request token_data)
                 | inr e_detail =>
                     Respond (mkJSONResponse 401 (TokenRejected e_detail)
                                www_authenticate_bearer)
                 end).
  { rewrite dispatch_result. cbv zeta. fold path. rewrite Hh, Ht, Hj, Hx, Hk, Hb.
    cbn [negb andb]. now rewrite andb_false_r. }
  split; [exact Hr|]. split.
  - rewrite token_calls_dispatch. cbv zeta. fold path.
    rewrite Hh, Ht, Hj, Hx, Hk, Hb. cbn [negb andb orb]. now rewrite orb_true_r.
  - intros token_data Hv. rewrite Hr, Hv. eexists. split; [reflexivity|].
    repeat split.
Qed.

(** A token that the verifier accepts, on a gate with token authentication
    alone. *)
Lemma bearer_token_outcome_witness :
  let self := result (init None
                        (mkApiKeyAuthConfig false "Authorization" "ApiKey " None [])
                        (mkJwtAuthConfig true ["/health/**"])) in
  let request := get_request "/api/items" [("authorization", "Bearer abc")] in
  let verify := fun token : string =>
                  if String.eqb token "abc"
                  then @inl dict string [("sub", JStr "admin")]
                  else inr "invalid" in
  (jwt_enabled self = true /\ result (is_path_excluded_jwt self "/api/items") = false) /\
  result (dispatch verify self request)
  = CallNext (with_identity request [("sub", JStr "admin")]) /\
  filter is_token_call (trace (dispatch verify self request)) = [GetTokenData "abc"].
Proof.
  intros self request verify. split; [split; reflexivity|].
  split; apply (bearer_token_outcome verify self request "Bearer abc"
                  eq_refl eq_refl eq_refl eq_refl eq_refl).
Defined.

End AuthGateFacts.

(* ================================================================== *)
(** * PathMatcher: descendants, and the trailing star *)
(* ================================================================== *)

Module PathMatcherMoreFacts.
Import PyStr PathMatcher PathMatcherProps PyStrFacts PathMatcherFacts.

Lemma contains_iff (s sub : string) :
  contains s sub = true <-> exists a b : string, s = (a ++ sub ++ b)%string.
Proof.
  split.
  - induction s as [|c s IH]; rewrite contains_unfold;
      destruct (startswith _ sub) eqn:E; intros H; try discriminate.
    + apply startswith_iff in E. destruct E as [t Ht]. now exists EmptyString, t.
    + apply startswith_iff in E. destruct E as [t Ht]. now exists EmptyString, t.
    + destruct (IH H) as [a [b Hab]]. exists (String c a), b. simpl. now rewrite Hab.
  - intros [a [b ->]]. induction a as [|c a IH].
    + cbn [append]. rewrite contains_unfold. now rewrite startswith_append.
    + change (String c a ++ sub ++ b)%string with (String c (a ++ sub ++ b)).
      rewrite contains_unfold. destruct (startswith _ sub); [reflexivity | exact IH].
Qed.

Lemma contains_slash_cons (c : ascii) (s : string) :
  contains (String c s) "/" = Ascii.eqb c "/" || contains s "/".
Proof.
  rewrite contains_unfold. simpl. destruct (Ascii.eqb c "/"); reflexivity.
Qed.

Lemma startswith_slash (c : ascii) (s : string) :
  startswith (String c s) "/" = Ascii.eqb c "/".
Proof. simpl. apply andb_true_r. Qed.

Lemma split_go_slash_cons (cur : string) (c : ascii) (s : string) :
  split_go "/" 0 cur (String c s)
  = if Ascii.eqb c "/" then cur :: split_go "/" 0 EmptyString s
    else split_go "/" 0 (cur ++ String c EmptyString) s.
Proof. cbn [split_go]. rewrite startswith_slash. reflexivity. Qed.

Lemma split_go_not_nil (cur s : string) : split_go "/" 0 cur s <> [].
Proof.
  revert cur; induction s as [|c s IH]; intros cur; [discriminate|].
  rewrite split_go_slash_cons. destruct (Ascii.eqb c "/"); [discriminate | apply IH].
Qed.

(** A text without a slash is a single segment. *)
Lemma split_go_no_slash (cur seg : string) :
  contains seg "/" = false -> split_go "/" 0 cur seg = [(cur ++ seg)%string].
Proof.
  revert cur; induction seg as [|c s IH]; intros cur H.
  - simpl. now rewrite append_nil_r.
  - rewrite contains_slash_cons in H. apply orb_false_iff in H. destruct H as [Hc Hs].
    rewrite split_go_slash_cons, Hc, (IH _ Hs), append_assoc. reflexivity.
Qed.

Lemma split_go_app_segment (cur a seg : string) :
  contains seg "/" = false ->
  split_go "/" 0 cur (a ++ "/" ++ seg) = split_go "/" 0 cur a ++ [seg].
Proof.
  intros Hseg. revert cur; induction a as [|c a IH]; intros cur.
  - cbn [append]. rewrite split_go_slash_cons. cbn [Ascii.eqb Bool.eqb andb].
    rewrite (split_go_no_slash EmptyString seg Hseg). reflexivity.
  - change (String c a ++ "/" ++ seg)%string with (String c (a ++ "/" ++ seg)).
    rewrite !split_go_slash_cons. destruct (Ascii.eqb c "/"); rewrite IH; reflexivity.
Qed.

(** ["/".join(s.split("/")) == s] *)
Lemma concat_split_go (cur s : string) :
  String.concat "/" (split_go "/" 0 cur s) = (cur ++ s)%string.
Proof.
  revert cur; induction s as [|c s IH]; intros cur.
  - simpl. now rewrite append_nil_r.
  - rewrite split_go_slash_cons. destruct (Ascii.eqb_spec c "/") as [->|Hc].
    + assert (Hne := split_go_not_nil EmptyString s).
      cbn [String.concat]. destruct (split_go "/" 0 EmptyString s) eqn:E;
        [contradiction|]. rewrite <- E, IH. reflexivity.
    + rewrite IH, append_assoc. reflexivity.
Qed.

Lemma concat_app_last (l : list string) (x : string) :
  l <> [] -> String.concat "/" (l ++ [x]) = (String.concat "/" l ++ "/" ++ x)%string.
Proof.
  induction l as [|y l IH]; intros Hne; [contradiction|].
  destruct l as [|z l].
  - reflexivity.
  - change ((y :: z :: l) ++ [x]) with (y :: ((z :: l) ++ [x])).
    cbn [String.concat app]. cbn [String.concat app] in IH.
    rewrite IH by discriminate. now rewrite !append_assoc.
Qed.

(** The segments of a split hold no slash. *)
Lemma split_go_segments (cur s x : string) :
  contains cur "/" = false -> In x (split_go "/" 0 cur s) -> contains x "/" = false.
Proof.
  revert cur; induction s as [|c s IH]; intros cur Hcur Hin.
  - destruct Hin as [<-|[]]. exact Hcur.
  - rewrite split_go_slash_cons in Hin. destruct (Ascii.eqb c "/") eqn:Hc.
    + destruct Hin as [<-|Hin]; [exact Hcur | now apply (IH EmptyString)].
    + apply (IH (cur ++ String c EmptyString)%string); [|exact Hin].
      clear IH Hin. induction cur as [|d cur IHc].
      * cbn [append]. rewrite contains_slash_cons, Hc. reflexivity.
      * rewrite contains_slash_cons in Hcur. apply orb_false_iff in Hcur.
        destruct Hcur as [Hd Hcur]. change (String d cur ++ String c EmptyString)%string
          with (String d (cur ++ String c EmptyString)).
        rewrite contains_slash_cons, Hd. now apply IHc.
Qed.

Lemma endswith_slash_app (a seg : string) :
  seg <> EmptyString -> contains seg "/" = false ->
  endswith (a ++ seg) "/" = false.
Proof.
  intros Hne Hno. apply not_true_is_false. intros H.
  apply endswith_iff in H. destruct H as [t Ht].
  assert (Hlast : forall u v : string,
             (u ++ seg)%string = (v ++ "/")%string -> contains seg "/" = true).
  { clear -Hne. intros u. induction u as [|c u IH]; intros v Huv.
    - simpl in Huv. apply contains_iff. destruct seg as [|c s]; [contradiction|].
      exists v, EmptyString. now rewrite Huv.
    - destruct v as [|d v]; simpl in Huv.
      + injection Huv as _ Huv. destruct u; [|discriminate]. simpl in Huv. contradiction.
      + injection Huv as _ Huv. now apply (IH v). }
  rewrite (Hlast a t Ht) in Hno. discriminate.
Qed.

Lemma pop_trailing_empty_app (l : list string) (x : string) :
  x <> EmptyString -> pop_trailing_empty (l ++ [x]) = l ++ [x].
Proof.
  intros Hx. unfold pop_trailing_empty. rewrite rev_app_distr. simpl.
  destruct x; [contradiction | reflexivity].
Qed.

Lemma pop_trailing_empty_cases (l : list string) :
  (pop_trailing_empty l = l /\ (forall front, l <> front ++ [EmptyString])) \/
  (exists front, l = front ++ [EmptyString] /\ pop_trailing_empty l = front).
Proof.
  unfold pop_trailing_empty. destruct (rev l) as [|x r] eqn:E.
  - left. split; [reflexivity|]. intros front ->. rewrite rev_app_distr in E. discriminate.
  - assert (Hl : l = rev r ++ [x]) by (rewrite <- (rev_involutive l), E; reflexivity).
    destruct x as [|c x].
    + right. exists (rev r). split; [exact Hl|]. rewrite Hl. apply removelast_last.
    + left. split; [reflexivity|]. intros front ->.
      rewrite rev_app_distr in E. discriminate.
Qed.

(** X6.  Under a pattern with [/**], whatever lies below a matching path
    matches as well: if [path] matches, so does [path] followed by a slash
    and any text (none included, so a trailing slash does no harm). *)
Theorem recursive_pattern_covers_descendants (path pattern tail : string) :
  contains pattern "/**" = true ->
  path_match path pattern = true ->
  path_match (path ++ "/" ++ tail) pattern = true.
Proof.
  intros Hc. unfold path_match. rewrite Hc, hd_split.
  rewrite !orb_true_iff, !String.eqb_eq, !startswith_iff.
  intros [->|[t ->]]; right.
  - exists tail. now rewrite append_assoc.
  - exists (t ++ "/" ++ tail)%string. now rewrite !append_assoc.
Qed.

(** [/health/**] and the paths below [/health/liveness]. *)
Lemma recursive_pattern_covers_descendants_witness :
  (contains "/health/**" "/**" = true /\
   path_match "/health/liveness" "/health/**" = true) /\
  path_match ("/health/liveness" ++ "/" ++ "detail") "/health/**" = true.
Proof.
  split; [split; reflexivity|].
  apply (recursive_pattern_covers_descendants "/health/liveness" "/health/**" "detail");
    reflexivity.
Defined.

Lemma Forall2_seg_pairs_refl (l : list string) : Forall2 seg_pairs l l.
Proof. induction l; constructor; [now right | assumption]. Qed.

Lemma Forall2_seg_pairs_plain (l l' : list string) :
  ~ In "*" l -> Forall2 seg_pairs l l' -> l' = l.
Proof.
  intros Hno H. induction H as [|x y l l' [Hx|Hx] _ IH]; [reflexivity| |].
  - exfalso. apply Hno. now left.
  - subst. f_equal. apply IH. intros Hin. apply Hno. now right.
Qed.

(** X7.  A pattern that ends in [/*] after a base without star segments
    matches exactly the paths one non-empty segment below the base: the
    base, a slash, and a non-empty text without a slash. *)
Theorem trailing_star_matches_one_segment (base path : string) :
  contains (base ++ "/*") "/**" = false ->
  ~ In "*" (split base "/") ->
  (path_match path (base ++ "/*") = true <->
   exists seg : string,
     seg <> EmptyString /\ contains seg "/" = false /\
     path = (base ++ "/" ++ seg)%string).
Proof.
  intros H2 Hplain.
  assert (H1 : contains (base ++ "/*") "/*" = true).
  { apply contains_iff. exists base, EmptyString. now rewrite append_nil_r. }
  assert (Hps : pop_trailing_empty (split (base ++ "/*") "/") = split base "/" ++ ["*"]).
  { unfold split. change (base ++ "/*")%string with (base ++ "/" ++ "*")%string.
    rewrite split_go_app_segment by reflexivity.
    apply pop_trailing_empty_app. discriminate. }
  assert (Hsb : split base "/" <> []) by apply split_go_not_nil.
  assert (Hjoin : String.concat "/" (split base "/") = base)
    by (unfold split; now rewrite concat_split_go).
  unfold path_match. rewrite H2, H1, Hps. split.
  - destruct (negb (String.eqb path "/") && endswith path "/") eqn:Hcond;
      [discriminate|].
    destruct (Nat.eqb_spec (List.length (split base "/" ++ ["*"]))
                (List.length (pop_trailing_empty (split path "/")))) as [Hlen|Hlen];
      [|discriminate].
    cbn [negb]. intros Hm. apply (segments_match_iff _ _ Hlen) in Hm.
    apply Forall2_app_inv_l in Hm. destruct Hm as [l1 [l2 [Hf1 [Hf2 Hsegs]]]].
    apply (Forall2_seg_pairs_plain _ _ Hplain) in Hf1. subst l1.
    inversion Hf2 as [|? seg ? l2' _ Hnil]; subst. inversion Hnil; subst.
    assert (Hpath : String.concat "/" (split path "/") = path)
      by (unfold split; now rewrite concat_split_go).
    destruct (pop_trailing_empty_cases (split path "/")) as [[Hid Hlast]|[front [Hfr Hpop]]].
    + rewrite Hid in Hsegs. exists seg. split; [|split].
      * intros ->. apply (Hlast (split base "/")). exact Hsegs.
      * apply (split_go_segments EmptyString path seg eq_refl).
        fold (split path "/"). rewrite Hsegs. apply in_or_app. right. now left.
      * rewrite <- Hpath, Hsegs, concat_app_last, Hjoin by exact Hsb. reflexivity.
    + exfalso. rewrite Hpop in Hsegs. subst front.
      assert (Hends : endswith path "/" = true).
      { apply endswith_iff. exists (base ++ "/" ++ seg)%string.
        rewrite <- Hpath, Hfr, concat_app_last, concat_app_last, Hjoin by
          (try exact Hsb; intros E; apply app_eq_nil in E; destruct E; discriminate).
        reflexivity. }
      rewrite Hends, andb_true_r in Hcond. apply negb_false_iff, String.eqb_eq in Hcond.
      subst path. apply (f_equal (@List.length string)) in Hfr.
      rewrite !length_app in Hfr. simpl in Hfr.
      destruct (split base "/"); [contradiction | simpl in Hfr; lia].
  - intros [seg [Hne [Hno ->]]].
    assert (Hend : endswith (base ++ "/" ++ seg) "/" = false).
    { rewrite <- append_assoc. now apply endswith_slash_app. }
    rewrite Hend, andb_false_r.
    assert (Hsp : pop_trailing_empty (split (base ++ "/" ++ seg) "/")
                  = split base "/" ++ [seg]).
    { unfold split. rewrite split_go_app_segment by exact Hno.
      now apply pop_trailing_empty_app. }
    rewrite Hsp, !length_app, Nat.eqb_refl. cbn [negb].
    apply segments_match_iff; [now rewrite !length_app|].
    apply Forall2_app; [apply Forall2_seg_pairs_refl|].
    constructor; [now left | constructor].
Qed.

(** [/api/*] and [/api/users]. *)
Lemma trailing_star_matches_one_segment_witness :
  (contains ("/api" ++ "/*") "/**" = false /\ ~ In "*" (split "/api" "/")) /\
  (path_match "/api/users" ("/api" ++ "/*") = true <->
   exists seg : string,
     seg <> EmptyString /\ contains seg "/" = false /\
     "/api/users" = ("/api" ++ "/" ++ seg)%string).
Proof.
  assert (H : ~ In "*" (split "/api" "/")).
  { intros [E|[E|[]]]; discriminate E. }
  split; [split; [reflexivity | exact H]|].
  apply (trailing_star_matches_one_segment "/api" "/api/users" eq_refl H).
Defined.

End PathMatcherMoreFacts.

(* ================================================================== *)
(** * TrailingSlashNormalizer: what [dispatch] leaves alone *)
(* ================================================================== *)

Module TrailingSlashMoreFacts.
Import PyStr Http TrailingSlash TrailingSlashProps PyStrFacts TrailingSlashFacts.

(** X8.  The normalizer touches nothing but the routing path.  A request it
    hands on keeps its URL, headers and state, and its routing path either
    stays or, in internal mode and for a path other than [/] that ends in a
    slash, becomes the normalized path.  It redirects only in redirect mode
    and only for such a path, with status 301 and the URL of the request
    with the normalized path.  The root path and every path that does not
    end in a slash go on untouched in both modes. *)
Theorem trailing_slash_frame (self : TrailingSlashMiddleware) (request : Request) :
  let path := url_path (url request) in
  let slashed := path <> "/" /\ endswith path "/" = true in
  (forall forwarded : Request,
      dispatch self request = CallNext forwarded ->
      url forwarded = url request /\ headers forwarded = headers request /\
      state_user forwarded = state_user request /\
      state_token_data forwarded = state_token_data request /\
      (forwarded = request \/
       (redirect self = false /\ slashed /\
        scope_path forwarded = normalized_path path))) /\
  (forall (redirect_url : URL) (code : Z),
      dispatch self request = RedirectResponse redirect_url code ->
      redirect self = true /\ slashed /\ code = 301%Z /\
      redirect_url = url_replace_path (url request) (normalized_path path)) /\
  (path = "/" \/ endswith path "/" = false -> dispatch self request = CallNext request).
Proof.
  intros path slashed. subst slashed. unfold dispatch. fold path.
  destruct (String.eqb_spec path "/") as [E|E]; cbn [negb andb].
  - split; [|split].
    + intros f H. injection H as <-. repeat split. now left.
    + intros u c H. discriminate H.
    + reflexivity.
  - destruct (endswith path "/") eqn:Hend.
    + destruct (redirect self) eqn:Hr.
      * split; [intros ? H; discriminate H|]. split.
        -- intros u c H. injection H as <- <-. now repeat split.
        -- intros [H|H]; [contradiction | discriminate H].
      * split; [|split].
        -- intros f H. injection H as <-. cbn. repeat split. right. now repeat split.
        -- intros u c H. discriminate H.
        -- intros [H|H]; [contradiction | discriminate H].
    + split; [|split].
      * intros f H. injection H as <-. repeat split. now left.
      * intros u c H. discriminate H.
      * reflexivity.
Qed.

Lemma rstrip_replicate (n : nat) (c : ascii) : rstrip (replicate n c) c = EmptyString.
Proof.
  unfold rstrip. induction n as [|n IH]; [reflexivity|].
  simpl. now rewrite IH, Ascii.eqb_refl.
Qed.

(** X9.  Normalizing is idempotent, and it leaves a path as it is exactly
    when the path does not end in a slash.  A path made of slashes only is
    normalized to the empty path: for two slashes or more the internal mode
    routes the request with an empty routing path, and the redirect mode
    redirects to the URL with an empty path. *)
Theorem normalized_path_laws :
  (forall path, normalized_path (normalized_path path) = normalized_path path) /\
  (forall path, normalized_path path = path <-> endswith path "/" = false) /\
  (forall n, normalized_path (replicate n "/") = EmptyString) /\
  (forall (self : TrailingSlashMiddleware) (request : Request) (n : nat),
      url_path (url request) = replicate (S (S n)) "/" ->
      dispatch self request
      = if redirect self
        then RedirectResponse (url_replace_path (url request) EmptyString) 301
        else CallNext (mkRequest (url request) EmptyString (headers request)
                         (state_user request) (state_token_data request))).
Proof.
  unfold normalized_path. split; [|split; [|split]].
  - intros path. apply rstrip_fixed, rstrip_not_endswith.
  - intros path. split.
    + intros E. rewrite <- E. apply rstrip_not_endswith.
    + apply rstrip_fixed.
  - intros n. apply rstrip_replicate.
  - intros self request n Hp. unfold dispatch, normalized_path. rewrite Hp.
    rewrite rstrip_replicate.
    assert (Hend : endswith (replicate (S (S n)) "/") "/" = true).
    { apply endswith_iff. exists (replicate (S n) "/"). clear.
      induction n as [|n IH]; [reflexivity|].
      change (replicate (S (S (S n))) "/") with (String "/" (replicate (S (S n)) "/")).
      rewrite IH at 1. reflexivity. }
    rewrite Hend. reflexivity.
Qed.

End TrailingSlashMoreFacts.

(* ================================================================== *)
(** * BodyCapture: headers, query parameters, request bodies *)
(* ================================================================== *)

Module LoggingMoreFacts.
Import PyStr PathMatcher Http Logging LoggingMore JsonProps PyStrFacts LoggingFacts.

Lemma str_dict_get_set (d : str_dict) (k k' v : string) :
  str_dict_get (str_dict_set d k v) k'
  = if String.eqb k k' then Some v else str_dict_get d k'.
Proof.
  induction d as [|[k0 v0] d IH]; simpl.
  - reflexivity.
  - destruct (String.eqb_spec k0 k) as [->|Hne]; simpl.
    + destruct (String.eqb k k'); reflexivity.
    + rewrite IH. destruct (String.eqb_spec k0 k') as [->|_]; [|reflexivity].
      destruct (String.eqb_spec k k') as [->|_]; [contradiction | reflexivity].
Qed.

Lemma find_append {A : Type} (f : A -> bool) (l1 l2 : list A) :
  find f (l1 ++ l2) = match find f l1 with Some x => Some x | None => find f l2 end.
Proof.
  induction l1 as [|x l1 IH]; simpl; [reflexivity|]. now destruct (f x).
Qed.

(** Reading a dict that a loop has filled by assignment: the last item named
    [k] decides. *)
Lemma str_dict_get_fold (f : string * string -> string)
    (items : list (string * string)) (acc : str_dict) (k : string) :
  str_dict_get (fold_left (fun d kv => str_dict_set d (fst kv) (f kv)) items acc) k
  = match find (fun kv => String.eqb (fst kv) k) (rev items) with
    | Some kv => Some (f kv)
    | None => str_dict_get acc k
    end.
Proof.
  revert acc; induction items as [|x items IH]; intros acc; [reflexivity|].
  cbn [fold_left rev]. rewrite IH, find_append.
  destruct (find _ (rev items)); [reflexivity|].
  rewrite str_dict_get_set. cbn [find]. now destruct (String.eqb (fst x) k).
Qed.

(** X10.  What the log shows of the headers: nothing when header logging is
    off for that direction; otherwise, for every header name, the mask
    token if the lower-case name is sensitive or is [authorization]
    (whether or not the sensitive set lists it), and the value of the last
    header of that name if not. *)
Theorem get_headers_lookup (self : RequestResponseLoggingMiddleware)
    (headers : Headers) (is_request : bool) (name : string) :
  str_dict_get (_get_headers self headers is_request) name
  = if if is_request then log_request_headers self else log_response_headers self
    then match find (fun kv => String.eqb (fst kv) name) (rev headers) with
         | Some (_, value) =>
             Some (if is_sensitive (sensitive_fields self) name
                      || String.eqb (lower name) "authorization"
                   then MASK else value)
         | None => None
         end
    else None.
Proof.
  unfold _get_headers.
  destruct is_request, (log_request_headers self), (log_response_headers self);
    cbn [negb andb orb]; try reflexivity.
  all: rewrite (fold_left_pointwise _
             (fun d kv => str_dict_set d (fst kv)
                (if is_sensitive (sensitive_fields self) (fst kv)
                    || String.eqb (lower (fst kv)) "authorization"
                 then MASK else snd kv)))
    by (intros d [k v]; cbn [fst snd];
        now destruct (is_sensitive (sensitive_fields self) k
                      || String.eqb (lower k) "authorization")).
  all: rewrite str_dict_get_fold; cbn [str_dict_get];
    destruct (find _ (rev headers)) as [[k v]|] eqn:E; [|reflexivity];
    apply find_some in E; destruct E as [_ E]; cbn [fst] in E;
    apply String.eqb_eq in E; subst k; reflexivity.
Qed.

(** X11.  What the log shows of the query parameters: for every parameter
    name, the mask token if the lower-case name is sensitive, and the value
    of the last item of that name if not; a parameter called
    [authorization] is masked only when the sensitive set lists it. *)
Theorem get_query_params_lookup (self : RequestResponseLoggingMiddleware)
    (query_items : list (string * string)) (name : string) :
  str_dict_get (_get_query_params self query_items) name
  = match find (fun kv => String.eqb (fst kv) name) (rev query_items) with
    | Some (_, value) =>
        Some (if is_sensitive (sensitive_fields self) name then MASK else value)
    | None => None
    end.
Proof.
  unfold _get_query_params.
  rewrite (fold_left_pointwise _
             (fun d kv => str_dict_set d (fst kv)
                (if is_sensitive (sensitive_fields self) (fst kv)
                 then MASK else snd kv)))
    by (intros d [k v]; cbn [fst snd];
        now destruct (is_sensitive (sensitive_fields self) k)).
  rewrite str_dict_get_fold. cbn [str_dict_get].
  destruct (find _ (rev query_items)) as [[k v]|] eqn:E; [|reflexivity].
  apply find_some in E. destruct E as [_ E]. cbn [fst] in E.
  apply String.eqb_eq in E. subst k. reflexivity.
Qed.

Lemma truncate_body_length (self : RequestResponseLoggingMiddleware) (body : string) :
  (0 <= max_body_size self)%Z ->
  String.length (_truncate_body self body)
  <= Z.to_nat (max_body_size self) + String.length TRUNCATED.
Proof.
  intros Hmax. unfold _truncate_body, slice_to.
  destruct (Z.leb_spec 0 (max_body_size self)); [|lia].
  destruct (Z.gtb_spec (Z.of_nat (String.length body)) (max_body_size self)).
  - rewrite length_append, length_take by lia. lia.
  - lia.
Qed.

(** X12.  With a maximum that is not negative, truncating is idempotent: a
    body that has been truncated is not cut a second time, although it is
    longer than the maximum. *)
Theorem truncate_body_idempotent (self : RequestResponseLoggingMiddleware)
    (body : string) :
  (0 <= max_body_size self)%Z ->
  _truncate_body self (_truncate_body self body) = _truncate_body self body.
Proof.
  intros Hmax. unfold _truncate_body at 2 3. unfold slice_to.
  destruct (Z.leb_spec 0 (max_body_size self)); [|lia].
  destruct (Z.gtb_spec (Z.of_nat (String.length body)) (max_body_size self)) as [Hlong|Hshort].
  - unfold _truncate_body, slice_to.
    destruct (Z.leb_spec 0 (max_body_size self)); [|lia].
    assert (Hlen : String.length
                     (take (Z.to_nat (max_body_size self)) body ++ TRUNCATED)
                   = Z.to_nat (max_body_size self) + String.length TRUNCATED).
    { rewrite length_append, length_take by lia. reflexivity. }
    destruct (Z.gtb_spec
                (Z.of_nat (String.length
                             (take (Z.to_nat (max_body_size self)) body ++ TRUNCATED)))
                (max_body_size self)) as [_|Hn].
    + rewrite take_take_append by lia. reflexivity.
    + rewrite Hlen in Hn. simpl in Hn. lia.
  - unfold _truncate_body.
    destruct (Z.gtb_spec (Z.of_nat (String.length body)) (max_body_size self)); [lia|].
    reflexivity.
Qed.

(** A body of sixteen characters under a maximum of ten, truncated twice. *)
Lemma truncate_body_idempotent_witness :
  let self := mkLogging [] [] [] 10 true false true true in
  (0 <= max_body_size self)%Z /\
  _truncate_body self "0123456789abcdef" = "0123456789... [truncated]" /\
  _truncate_body self (_truncate_body self "0123456789abcdef")
  = _truncate_body self "0123456789abcdef".
Proof.
  intros self. split; [discriminate|]. split; [reflexivity|].
  apply (truncate_body_idempotent self "0123456789abcdef"). discriminate.
Defined.

(** X13.  A file-upload request never has its body looked at: whatever the
    body is (even unreadable) and whatever the decoder and the JSON parser
    do, the result is the same descriptor, built from the Content-Type and
    the path alone.  A path that contains one of the keywords [/upload],
    [/file], [/download], [/attachment] (in any letter case) makes a
    file-upload request whatever the Content-Type. *)
Theorem file_request_body_not_logged
    (json_loads json_loads' : string -> option json) (json_dumps : json -> string)
    (decode_utf8 decode_utf8' : list Byte.byte -> option string)
    (self : RequestResponseLoggingMiddleware) (request : Request)
    (body body' : option (list Byte.byte)) :
  _is_file_request request = true ->
  _get_request_body json_loads json_dumps decode_utf8 self request body
  = _get_request_body json_loads' json_dumps decode_utf8' self request body' /\
  (log_request_body self = true ->
   _get_request_body json_loads json_dumps decode_utf8 self request body
   = Some (json_dumps
             (JDict [ ("file_upload_info",
                       JDict (_get_file_details request
                                (lower (headers_get_default (headers request)
                                          "content-type" EmptyString))));
                      ("message", JStr "<file content not logged>") ]))) /\
  (forall (other : Request) (keyword : string),
      In keyword FILE_PATH_KEYWORDS ->
      contains (lower (url_path (url other))) keyword = true ->
      _is_file_request other = true).
Proof.
  intros Hfile. unfold _get_request_body. rewrite Hfile. split; [|split].
  - reflexivity.
  - intros ->. reflexivity.
  - intros other keyword Hin Hc. unfold _is_file_request.
    destruct (existsb _ FILE_CONTENT_TYPES); [reflexivity|].
    apply existsb_exists. now exists keyword.
Qed.

(** An upload of [photo.png] with a JSON content type. *)
Lemma file_request_body_not_logged_witness :
  let self := mkLogging [] [] ["password"] 10000 true false true true in
  let request := mkRequest (mkURL "http" "testserver" "/api/upload/photo.png" EmptyString)
                   "/api/upload/photo.png" [("content-type", "application/json")]
                   None None in
  _is_file_request request = true /\
  _get_file_details request "application/json"
  = [("type", JStr "file_upload"); ("content_type", JStr "application/json");
     ("filename", JStr "photo.png")] /\
  _get_request_body (fun _ => None) (fun _ => "descriptor") (fun _ => None) self request
    (Some (list_byte_of_string "{}"))
  = _get_request_body (fun _ => Some JNull) (fun _ => "descriptor")
      (fun b => Some (string_of_list_byte b)) self request None.
Proof.
  intros self request. split; [reflexivity|]. split; [reflexivity|].
  exact (proj1 (file_request_body_not_logged (fun _ => None) (fun _ => Some JNull)
                  (fun _ => "descriptor") (fun _ => None)
                  (fun b => Some (string_of_list_byte b)) self request
                  (Some (list_byte_of_string "{}")) None eq_refl)).
Defined.

(** X14.  With a maximum that is not negative, a captured body that is no
    file descriptor has at most [max + len(marker)] characters, on the
    request side and on the response side alike. *)
Theorem captured_body_is_bounded
    (json_loads : string -> option json) (json_dumps : json -> string)
    (decode_utf8 : list Byte.byte -> option string)
    (self : RequestResponseLoggingMiddleware) :
  (0 <= max_body_size self)%Z ->
  (forall (request : Request) (body : option (list Byte.byte)) (logged : string),
      _is_file_request request = false ->
      _get_request_body json_loads json_dumps decode_utf8 self request body
      = Some logged ->
      String.length logged <= Z.to_nat (max_body_size self) + String.length TRUNCATED) /\
  (forall (response : Response) (logged : string),
      _is_file_response response = false ->
      _capture_response_body json_loads json_dumps decode_utf8 self response
      = Some logged ->
      String.length logged <= Z.to_nat (max_body_size self) + String.length TRUNCATED).
Proof.
  intros Hmax. split.
  - intros request body logged Hfile. unfold _get_request_body. rewrite Hfile.
    destruct (log_request_body self); cbn [negb]; [|discriminate].
    destruct body as [[|b bytes]|]; try discriminate.
    destruct (decode_utf8 (b :: bytes)) as [body_str|]; [|discriminate].
    destruct (json_loads body_str); intros H; injection H as <-;
      now apply truncate_body_length.
  - intros response logged Hfile. unfold _capture_response_body. rewrite Hfile.
    destruct (log_response_body self); cbn [negb]; [|discriminate].
    destruct (class response); try discriminate.
    + destruct (body_raw response) as [raw|]; [|discriminate].
      destruct (json_truthy raw); [|discriminate].
      intros H. injection H as <-. now apply truncate_body_length.
    + destruct (body response) as [|b bytes]; [discriminate|].
      destruct (decode_utf8 (b :: bytes)) as [body_str|]; [|discriminate].
      destruct (json_loads body_str); intros H; injection H as <-;
        now apply truncate_body_length.
Qed.

(** A JSON response of twenty characters under a maximum of ten. *)
Lemma captured_body_is_bounded_witness :
  let self := mkLogging [] [] [] 10 true false true true in
  let response := mkResponse JSONResponse 200 [("content-type", "application/json")]
                    (list_byte_of_string "aaaaaaaaaaaaaaaaaaaa") None in
  let decode := fun b => Some (string_of_list_byte b) in
  let logged := "aaaaaaaaaa... [truncated]" in
  (0 <= max_body_size self)%Z /\
  _capture_response_body (fun _ => None) (fun _ => EmptyString) decode self response
  = Some logged /\
  String.length logged <= Z.to_nat (max_body_size self) + String.length TRUNCATED.
Proof.
  intros self response decode logged. split; [discriminate|]. split; [reflexivity|].
  assert (Hmax : (0 <= max_body_size self)%Z) by discriminate.
  apply (proj2 (captured_body_is_bounded (fun _ => None) (fun _ => EmptyString)
                  decode self Hmax) response logged); reflexivity.
Defined.

End LoggingMoreFacts.

(* ================================================================== *)
(** * ObservabilityMiddleware: [dispatch] of the logging middleware *)
(* ================================================================== *)

Module LoggingDispatchFacts.
Import PyStr PathMatcher Http Logging LoggingMore LoggingDispatch PyStrFacts.

Lemma headers_get_filter_other (h : Headers) (key name : string) :
  lower name <> key ->
  headers_get (filter (fun kv => negb (String.eqb (fst kv) key)) h) name
  = headers_get h name.
Proof.
  intros Hne. induction h as [|[k v] h IH]; [reflexivity|].
  cbn [filter fst]. destruct (String.eqb_spec k key) as [->|Hk]; cbn [negb].
  - cbn [headers_get]. destruct (String.eqb_spec key (lower name)); [congruence | exact IH].
  - cbn [headers_get]. now rewrite IH.
Qed.

Lemma headers_get_set_same (h : Headers) (name value : string) :
  headers_get (headers_set h name value) name = Some value.
Proof.
  induction h as [|[k v] h IH]; cbn [headers_set headers_get].
  - now rewrite String.eqb_refl.
  - destruct (String.eqb k (lower name)) eqn:E; cbn [headers_get]; rewrite E;
      [reflexivity | exact IH].
Qed.

Lemma headers_get_set_other (h : Headers) (name other value : string) :
  lower other <> lower name ->
  headers_get (headers_set h name value) other = headers_get h other.
Proof.
  intros Hne. induction h as [|[k v] h IH]; cbn [headers_set headers_get].
  - destruct (String.eqb_spec (lower name) (lower other)); [congruence | reflexivity].
  - destruct (String.eqb_spec k (lower name)) as [->|Hk]; cbn [headers_get].
    + destruct (String.eqb_spec (lower name) (lower other)); [congruence|].
      now apply headers_get_filter_other.
    + now rewrite IH.
Qed.

Lemma headers_set_single (h : Headers) (name value : string) :
  List.length (filter (fun kv => String.eqb (fst kv) (lower name))
                 (headers_set h name value)) = 1.
Proof.
  induction h as [|[k v] h IH]; cbn [headers_set filter fst].
  - now rewrite String.eqb_refl.
  - destruct (String.eqb k (lower name)) eqn:E; cbn [filter fst]; rewrite E.
    + cbn [List.length]. f_equal. clear. induction h as [|[k v] h IH]; [reflexivity|].
      cbn [filter fst]. destruct (String.eqb k (lower name)) eqn:E; cbn [negb];
        [exact IH|]. cbn [filter fst]. now rewrite E.
    + exact IH.
Qed.

(** A path that is not excluded leaves no record. *)
Lemma is_path_excluded_false (self : RequestResponseLoggingMiddleware) (path : string) :
  fst (is_path_excluded self path) = false ->
  is_path_excluded self path = (false, []).
Proof.
  unfold is_path_excluded.
  destruct (find _ (additional_exclude_paths self)); [discriminate|].
  destruct (find _ (exclude_patterns self)); [discriminate | reflexivity].
Qed.

(** An excluded path leaves one debug record, which names the entry that
    matched. *)
Lemma is_path_excluded_true (self : RequestResponseLoggingMiddleware) (path : string) :
  fst (is_path_excluded self path) = true ->
  exists entry : string,
    (In entry (additional_exclude_paths self) /\ startswith path entry = true /\
     is_path_excluded self path = (true, [ExcludePathMatched path entry])) \/
    (In entry (exclude_patterns self) /\ path_match path entry = true /\
     is_path_excluded self path = (true, [ExcludePatternMatched path entry])).
Proof.
  unfold is_path_excluded.
  destruct (find _ (additional_exclude_paths self)) as [e|] eqn:E1.
  - intros _. exists e. left. apply find_some in E1. destruct E1 as [Hin Hs].
    now repeat split.
  - destruct (find _ (exclude_patterns self)) as [p|] eqn:E2; [|discriminate].
    intros _. exists p. right. apply find_some in E2. destruct E2 as [Hin Hs].
    now repeat split.
Qed.

Lemma is_path_excluded_iff (self : RequestResponseLoggingMiddleware) (path : string) :
  fst (is_path_excluded self path) = true <->
  (exists exclude_path tail,
      In exclude_path (additional_exclude_paths self) /\
      path = (exclude_path ++ tail)%string) \/
  (exists pattern,
      In pattern (exclude_patterns self) /\ path_match path pattern = true).
Proof.
  split.
  - intros H. destruct (is_path_excluded_true self path H) as [e [[Hin [Hs _]]|[Hin [Hm _]]]].
    + left. apply startswith_iff in Hs. destruct Hs as [t Ht]. now exists e, t.
    + right. now exists e.
  - unfold is_path_excluded.
    destruct (find _ (additional_exclude_paths self)) as [e|] eqn:E1; [reflexivity|].
    destruct (find _ (exclude_patterns self)) as [p|] eqn:E2; [reflexivity|].
    intros [[e [t [Hin Ht]]]|[p [Hin Hm]]]; exfalso.
    + apply (find_none _ _ E1) in Hin.
      assert (startswith path e = true) by (apply startswith_iff; now exists t).
      simpl in Hin. congruence.
    + apply (find_none _ _ E2) in Hin. simpl in Hin. congruence.
Qed.

Section Facts.

Variable json_loads : string -> option json.
Variable json_dumps : json -> string.
Variable decode_utf8 : list Byte.byte -> option string.
Variable exn : Type.
Variable exn_str : exn -> string.
Variable is_exception : exn -> bool.
Variable duration : Type.

(** The two ends of [_get_request_body]: it lets through what is no
    [Exception], and otherwise returns what the model without records
    returns, after at most one warning. *)
Lemma get_request_body_logged_cases (self : RequestResponseLoggingMiddleware)
    (request : Request) (body : list Byte.byte + exn) :
  (exists e : exn,
      body = inr e /\ is_exception e = false /\
      _get_request_body_logged json_loads json_dumps decode_utf8 exn is_exception
        self request body = (inr e, [])) \/
  (exists log : list helper_record,
      _get_request_body_logged json_loads json_dumps decode_utf8 exn is_exception
        self request body
      = (inl (_get_request_body json_loads json_dumps decode_utf8 self request
                (body_read exn body)), log) /\
      (log = [] \/ log = [RequestBodyLoggingFailed])).
Proof.
  unfold _get_request_body_logged, _get_request_body.
  destruct (negb (log_request_body self)); [right; exists []; now split; [|left]|].
  cbv zeta. destruct (_is_file_request request); [right; exists []; now split; [|left]|].
  destruct body as [[|b bytes]|e]; cbn [body_read].
  - right. exists []. now split; [|left].
  - destruct (decode_utf8 (b :: bytes)) as [body_str|].
    + destruct (json_loads body_str); right; exists []; now split; [|left].
    + right. exists [RequestBodyLoggingFailed]. now split; [|right].
  - destruct (is_exception e) eqn:E.
    + right. exists [RequestBodyLoggingFailed]. now split; [|right].
    + left. now exists e.
Qed.

(** [_capture_response_body] returns what the model without records
    returns, after at most one warning. *)
Lemma capture_response_body_logged_cases (self : RequestResponseLoggingMiddleware)
    (response : Response) :
  exists log : list helper_record,
    _capture_response_body_logged json_loads json_dumps decode_utf8 self response
    = (_capture_response_body json_loads json_dumps decode_utf8 self response, log) /\
    (log = [] \/ log = [ResponseBodyLoggingFailed]).
Proof.
  unfold _capture_response_body_logged, _capture_response_body.
  destruct (negb (log_response_body self)); [exists []; now split; [|left]|].
  destruct (_is_file_response response); [exists []; now split; [|left]|].
  destruct (class response); try (exists []; now split; [|left]).
  - destruct (body_raw response) as [raw|]; [|exists []; now split; [|left]].
    destruct (json_truthy raw); exists []; now split; [|left].
  - destruct (body response) as [|b bytes]; [exists []; now split; [|left]|].
    destruct (decode_utf8 (b :: bytes)) as [body_str|].
    + destruct (json_loads body_str); exists []; now split; [|left].
    + exists [ResponseBodyLoggingFailed]. now split; [|right].
Qed.

(** X15.  The records of a request.  On a path excluded from logging (it
    starts with an additional exclude path or matches a configured pattern)
    [dispatch] writes the one debug record of [is_path_excluded], which
    names the entry that matched, and hands back what the next stage gives,
    untouched.  On any other path, unless the read of the body ends in
    something that is no [Exception] (which [dispatch] then raises, with no
    record), the log is: at most one warning of the request-body helper,
    the "started" record, and then, when the next stage returns, at most
    one warning of the response-body helper and the "completed" record;
    when it raises an [Exception], the "failed" record; when it raises
    anything else, nothing more.  The second record carries the same
    request id, method, path, client, masked query parameters, masked
    headers and request body as the first; an absent client address is
    logged as [unknown]. *)
Theorem logging_dispatch_records (self : RequestResponseLoggingMiddleware)
    (request_id : string) (process_time_ms : duration)
    (read_body : HttpRequest -> list Byte.byte + exn)
    (call_next : HttpRequest -> Response + exn) (req : HttpRequest) :
  let path := url_path (url (request req)) in
  let run := dispatch json_loads json_dumps decode_utf8 exn exn_str is_exception
               duration self request_id process_time_ms read_body call_next req in
  (fst (is_path_excluded self path) = true <->
     (exists exclude_path tail,
         In exclude_path (additional_exclude_paths self) /\
         path = (exclude_path ++ tail)%string) \/
     (exists pattern,
         In pattern (exclude_patterns self) /\ path_match path pattern = true)) /\
  (fst (is_path_excluded self path) = true ->
   fst run = match call_next req with
             | inl response => Returned exn response
             | inr e => Raised exn e
             end /\
   exists entry : string,
     (In entry (additional_exclude_paths self) /\ startswith path entry = true /\
      snd run = [Helper duration (ExcludePathMatched path entry)]) \/
     (In entry (exclude_patterns self) /\ path_match path entry = true /\
      snd run = [Helper duration (ExcludePatternMatched path entry)])) /\
  (fst (is_path_excluded self path) = false ->
   (exists e : exn,
       read_body req = inr e /\ is_exception e = false /\
       run = (Raised exn e, [])) \/
   (exists (started : logging_context duration) (before : list (log_record duration)),
       (before = [] \/ before = [Helper duration RequestBodyLoggingFailed]) /\
       ctx_request_id duration started = request_id /\
       ctx_method duration started = method req /\
       ctx_path duration started = path /\
       ctx_client duration started
       = match client_host req with Some host => host | None => "unknown" end /\
       ctx_query_params duration started = _get_query_params self (query_items req) /\
       ctx_path_params duration started = path_params req /\
       ctx_headers duration started = _get_headers self (headers (request req)) true /\
       ctx_request_body duration started
       = if_truthy (_get_request_body json_loads json_dumps decode_utf8 self
                      (request req) (body_read exn (read_body req))) /\
       ctx_status_code duration started = None /\
       match call_next req with
       | inl response =>
           exists (completed : logging_context duration)
                  (between : list (log_record duration)),
             (between = [] \/ between = [Helper duration ResponseBodyLoggingFailed]) /\
             snd run = before ++ RequestStarted duration started
                         :: between ++ [RequestCompleted duration completed] /\
             ctx_request_id duration completed = request_id /\
             ctx_method duration completed = ctx_method duration started /\
             ctx_path duration completed = ctx_path duration started /\
             ctx_client duration completed = ctx_client duration started /\
             ctx_query_params duration completed = ctx_query_params duration started /\
             ctx_path_params duration completed = ctx_path_params duration started /\
             ctx_headers duration completed = ctx_headers duration started /\
             ctx_request_body duration completed = ctx_request_body duration started /\
             ctx_process_time_ms duration completed = Some process_time_ms
       | inr e =>
           if is_exception e then
             exists failed : logging_context duration,
               snd run = before ++ [RequestStarted duration started;
                                    RequestFailed duration failed] /\
               ctx_request_id duration failed = request_id /\
               ctx_method duration failed = ctx_method duration started /\
               ctx_path duration failed = ctx_path duration started /\
               ctx_client duration failed = ctx_client duration started /\
               ctx_query_params duration failed = ctx_query_params duration started /\
               ctx_path_params duration failed = ctx_path_params duration started /\
               ctx_headers duration failed = ctx_headers duration started /\
               ctx_request_body duration failed = ctx_request_body duration started /\
               ctx_process_time_ms duration failed = Some process_time_ms
           else snd run = before ++ [RequestStarted duration started]
       end)).
Proof.
  intros path run. subst run. split; [apply is_path_excluded_iff|]. split.
  - intros Hex. destruct (is_path_excluded_true self path Hex)
      as [entry [[Hin [Hs E]]|[Hin [Hm E]]]];
      unfold dispatch; fold path; rewrite E; cbn [fst snd map];
      (split; [reflexivity|]); exists entry; [left | right]; now repeat split.
  - intros Hex. apply is_path_excluded_false in Hex.
    unfold dispatch. fold path. rewrite Hex.
    destruct (get_request_body_logged_cases self (request req) (read_body req))
      as [[e [Hb [He E]]]|[log [E Hlog]]]; rewrite E.
    + left. now exists e.
    + right. cbv zeta.
      match goal with
      | |- context [RequestStarted duration ?s] => exists s
      end.
      exists (map (Helper duration) log).
      split; [destruct Hlog as [ -> | -> ]; [left | right]; reflexivity|].
      cbn [ctx_request_id ctx_method ctx_path ctx_client ctx_query_params
           ctx_path_params ctx_headers ctx_request_body ctx_status_code].
      do 9 (split; [reflexivity|]).
      destruct (call_next req) as [response|e].
      * destruct (capture_response_body_logged_cases self response)
          as [clog [Ec Hclog]]. rewrite Ec.
        eexists. exists (map (Helper duration) clog).
        split; [destruct Hclog as [ -> | -> ]; [left | right]; reflexivity|].
        cbn [snd app]. split; [now rewrite <- app_assoc|].
        cbn. repeat split.
      * destruct (is_exception e).
        -- eexists. cbn [snd app]. split; [now rewrite <- app_assoc|].
           cbn. repeat split.
        -- reflexivity.
Qed.

(** X16.  The correlation header.  When the next stage returns a response on
    a path that is logged, [dispatch] returns that response with the header
    [X-Request-ID] set to the request id of the "started" and "completed"
    records: reading the header gives the id, the response holds exactly
    one header of that name, every other header reads as before, and the
    class, status and body are untouched.  The "completed" record carries
    the status of the response.  Besides the two records the log holds at
    most one warning of each body helper.  The one other way out is a read
    of the request body that ends in something that is no [Exception]:
    [dispatch] raises it before it writes a record. *)
Theorem logging_dispatch_stamps_request_id (self : RequestResponseLoggingMiddleware)
    (request_id : string) (process_time_ms : duration)
    (read_body : HttpRequest -> list Byte.byte + exn)
    (call_next : HttpRequest -> Response + exn) (req : HttpRequest)
    (response : Response) :
  fst (is_path_excluded self (url_path (url (request req)))) = false ->
  call_next req = inl response ->
  (exists e : exn,
      read_body req = inr e /\ is_exception e = false /\
      dispatch json_loads json_dumps decode_utf8 exn exn_str is_exception duration
        self request_id process_time_ms read_body call_next req
      = (Raised exn e, [])) \/
  exists (stamped : Response) (started completed : logging_context duration)
         (before between : list (log_record duration)),
    dispatch json_loads json_dumps decode_utf8 exn exn_str is_exception duration
      self request_id process_time_ms read_body call_next req
    = (Returned exn stamped,
       before ++ RequestStarted duration started
         :: between ++ [RequestCompleted duration completed]) /\
    (before = [] \/ before = [Helper duration RequestBodyLoggingFailed]) /\
    (between = [] \/ between = [Helper duration ResponseBodyLoggingFailed]) /\
    headers_get (resp_headers stamped) "X-Request-ID" = Some request_id /\
    ctx_request_id duration started = request_id /\
    ctx_request_id duration completed = request_id /\
    ctx_status_code duration completed = Some (resp_status_code response) /\
    ctx_error duration completed = None /\
    List.length (filter (fun kv => String.eqb (fst kv) "x-request-id")
                   (resp_headers stamped)) = 1 /\
    (forall name : string,
        lower name <> "x-request-id" ->
        headers_get (resp_headers stamped) name
        = headers_get (resp_headers response) name) /\
    class stamped = class response /\
    resp_status_code stamped = resp_status_code response /\
    body stamped = body response /\
    body_raw stamped = body_raw response.
Proof.
  intros Hex Hnext. apply is_path_excluded_false in Hex.
  unfold dispatch. rewrite Hex, Hnext.
  destruct (get_request_body_logged_cases self (request req) (read_body req))
    as [[e [Hb [He E]]]|[log [E Hlog]]]; rewrite E.
  - left. now exists e.
  - right.
    destruct (capture_response_body_logged_cases self response) as [clog [Ec Hclog]].
    rewrite Ec.
    eexists. eexists. eexists.
    exists (map (Helper duration) log), (map (Helper duration) clog).
    split; [cbn [app]; now rewrite <- app_assoc|].
    split; [destruct Hlog as [ -> | -> ]; [left | right]; reflexivity|].
    split; [destruct Hclog as [ -> | -> ]; [left | right]; reflexivity|].
    cbn [resp_headers class resp_status_code body body_raw ctx_request_id
         ctx_status_code ctx_error].
    repeat split.
    + apply headers_get_set_same.
    + apply (headers_set_single (resp_headers response) "X-Request-ID" request_id).
    + intros name Hne. now apply headers_get_set_other.
Qed.

(** X17.  A failure of the next stage is passed on as it is.  On an
    excluded path [dispatch] raises the very exception the next stage
    raised.  So it does on a logged path, unless the read of the request
    body has already ended in something that is no [Exception]; there the
    "started" record is followed by a "failed" record, with status 500, the
    text of the exception and no response data, exactly when the exception
    is an [Exception]: a [CancelledError] or a [KeyboardInterrupt] passes
    the [except Exception] and leaves the "started" record as the last
    one. *)
Theorem logging_dispatch_reraises (self : RequestResponseLoggingMiddleware)
    (request_id : string) (process_time_ms : duration)
    (read_body : HttpRequest -> list Byte.byte + exn)
    (call_next : HttpRequest -> Response + exn) (req : HttpRequest) (e : exn) :
  call_next req = inr e ->
  let run := dispatch json_loads json_dumps decode_utf8 exn exn_str is_exception
               duration self request_id process_time_ms read_body call_next req in
  (fst (is_path_excluded self (url_path (url (request req)))) = true ->
   fst run = Raised exn e) /\
  (fst (is_path_excluded self (url_path (url (request req)))) = false ->
   (exists e' : exn,
       read_body req = inr e' /\ is_exception e' = false /\
       run = (Raised exn e', [])) \/
   (fst run = Raised exn e /\
    exists (started : logging_context duration) (before : list (log_record duration)),
      (before = [] \/ before = [Helper duration RequestBodyLoggingFailed]) /\
      ctx_request_id duration started = request_id /\
      if is_exception e then
        exists failed : logging_context duration,
          snd run = before ++ [RequestStarted duration started;
                               RequestFailed duration failed] /\
          ctx_status_code duration failed = Some 500%Z /\
          ctx_error duration failed = Some (exn_str e) /\
          ctx_response_body duration failed = None /\
          ctx_response_headers duration failed = None /\
          ctx_request_id duration failed = request_id
      else snd run = before ++ [RequestStarted duration started])).
Proof.
  intros Hnext run. subst run. split.
  - intros Hex. destruct (is_path_excluded_true self _ Hex)
      as [entry [[_ [_ E]]|[_ [_ E]]]];
      unfold dispatch; rewrite E, Hnext; reflexivity.
  - intros Hex. apply is_path_excluded_false in Hex.
    unfold dispatch. rewrite Hex, Hnext.
    destruct (get_request_body_logged_cases self (request req) (read_body req))
      as [[e' [Hb [He E]]]|[log [E Hlog]]]; rewrite E.
    + left. now exists e'.
    + right. split; [now destruct (is_exception e)|]. cbv zeta.
      match goal with
      | |- context [RequestStarted duration ?s] => exists s
      end.
      exists (map (Helper duration) log).
      split; [destruct Hlog as [ -> | -> ]; [left | right]; reflexivity|].
      split; [reflexivity|].
      destruct (is_exception e).
      * eexists. cbn [snd app]. split; [now rewrite <- app_assoc|].
        cbn. repeat split.
      * reflexivity.
Qed.

End Facts.

(** A request to [/api/items] that the next stage answers with 200. *)
Lemma logging_dispatch_stamps_request_id_witness :
  let self := mkLogging [] ["/health/**"] ["password"] 10000 true false true true in
  let req := mkHttpRequest
               (mkRequest (mkURL "http" "testserver" "/api/items" EmptyString)
                  "/api/items" [("authorization", "ApiKey secret123")] None None)
               "GET" None [] [] in
  let response := mkResponse JSONResponse 200 [("content-type", "application/json")]
                    (list_byte_of_string "{}") None in
  let read := fun _ : HttpRequest => @inl (list Byte.byte) string [] in
  let next := fun _ : HttpRequest => @inl Response string response in
  let is_exception := fun e : string => negb (String.eqb e "CancelledError") in
  let run := dispatch (fun _ => None) (fun _ => "{}")
               (fun b => Some (string_of_list_byte b))
               string (fun e => e) is_exception nat self "id-1" 12 read next req in
  (fst (is_path_excluded self "/api/items") = false /\ next req = inl response) /\
  List.length (snd run) = 2 /\
  ((exists e : string,
       read req = inr e /\ is_exception e = false /\ run = (Raised string e, [])) \/
   exists (stamped : Response) (started completed : logging_context nat)
          (before between : list (log_record nat)),
     run = (Returned string stamped,
            before ++ RequestStarted nat started
              :: between ++ [RequestCompleted nat completed]) /\
     (before = [] \/ before = [Helper nat RequestBodyLoggingFailed]) /\
     (between = [] \/ between = [Helper nat ResponseBodyLoggingFailed]) /\
     headers_get (resp_headers stamped) "X-Request-ID" = Some "id-1" /\
     ctx_request_id nat started = "id-1" /\
     ctx_request_id nat completed = "id-1" /\
     ctx_status_code nat completed = Some (resp_status_code response) /\
     ctx_error nat completed = None /\
     List.length (filter (fun kv => String.eqb (fst kv) "x-request-id")
                    (resp_headers stamped)) = 1 /\
     (forall name : string,
         lower name <> "x-request-id" ->
         headers_get (resp_headers stamped) name
         = headers_get (resp_headers response) name) /\
     class stamped = class response /\
     resp_status_code stamped = resp_status_code response /\
     body stamped = body response /\
     body_raw stamped = body_raw response).
Proof.
  intros self req response read next is_exception run.
  split; [split; reflexivity|]. split; [reflexivity|].
  exact (logging_dispatch_stamps_request_id (fun _ => None) (fun _ => "{}")
           (fun b => Some (string_of_list_byte b)) string (fun e => e) is_exception nat
           self "id-1" 12 read next req response eq_refl eq_refl).
Defined.

(** A request to [/api/items] on which the next stage raises: a
    [ValueError] leaves the records "started" and "failed", a cancellation
    the record "started" alone. *)
Lemma logging_dispatch_reraises_witness :
  let self := mkLogging [] ["/health/**"] ["password"] 10000 true false true true in
  let req := mkHttpRequest
               (mkRequest (mkURL "http" "testserver" "/api/items" EmptyString)
                  "/api/items" [] None None)
               "GET" None [] [] in
  let read := fun _ : HttpRequest => @inl (list Byte.byte) string [] in
  let next := fun _ : HttpRequest => @inr Response string "ValueError" in
  let cancelled := fun _ : HttpRequest => @inr Response string "CancelledError" in
  let is_exception := fun e : string => negb (String.eqb e "CancelledError") in
  let run := fun call_next =>
    dispatch (fun _ => None) (fun _ => "{}") (fun b => Some (string_of_list_byte b))
      string (fun e => e) is_exception nat self "id-1" 12 read call_next req in
  (next req = inr "ValueError" /\
   fst (is_path_excluded self "/api/items") = false) /\
  (fst (run next) = Raised string "ValueError" /\ List.length (snd (run next)) = 2) /\
  (fst (run cancelled) = Raised string "CancelledError" /\
   List.length (snd (run cancelled)) = 1) /\
  ((exists e' : string,
       read req = inr e' /\ is_exception e' = false /\
       run next = (Raised string e', [])) \/
   (fst (run next) = Raised string "ValueError" /\
    exists (started : logging_context nat) (before : list (log_record nat)),
      (before = [] \/ before = [Helper nat RequestBodyLoggingFailed]) /\
      ctx_request_id nat started = "id-1" /\
      if is_exception "ValueError" then
        exists failed : logging_context nat,
          snd (run next) = before ++ [RequestStarted nat started;
                                      RequestFailed nat failed] /\
          ctx_status_code nat failed = Some 500%Z /\
          ctx_error nat failed = Some "ValueError" /\
          ctx_response_body nat failed = None /\
          ctx_response_headers nat failed = None /\
          ctx_request_id nat failed = "id-1"
      else snd (run next) = before ++ [RequestStarted nat started])).
Proof.
  intros self req read next cancelled is_exception run.
  split; [split; reflexivity|]. split; [split; reflexivity|].
  split; [split; reflexivity|].
  exact (proj2 (logging_dispatch_reraises (fun _ => None) (fun _ => "{}")
                  (fun b => Some (string_of_list_byte b)) string (fun e => e)
                  is_exception nat self "id-1" 12 read next req "ValueError" eq_refl)
           eq_refl).
Defined.

End LoggingDispatchFacts.

(* ================================================================== *)
(** * Configuration: [deep_merge] *)
(* ================================================================== *)

Module YamlConfigFacts.
Import PyStr Http JsonProps YamlConfig LoggingFacts.

Lemma dict_get_set (d : dict) (k k' : string) (v : json) :
  dict_get (dict_set d k v) k' = if String.eqb k k' then Some v else dict_get d k'.
Proof.
  induction d as [|[k0 v0] d IH]; simpl.
  - reflexivity.
  - destruct (String.eqb_spec k0 k) as [->|Hne]; simpl.
    + destruct (String.eqb k k'); reflexivity.
    + rewrite IH. destruct (String.eqb_spec k0 k') as [->|_]; [|reflexivity].
      destruct (String.eqb_spec k k') as [->|_]; [contradiction | reflexivity].
Qed.

Lemma dict_get_none (d : dict) (k : string) :
  dict_get d k = None <-> ~ In k (keys d).
Proof.
  induction d as [|[k0 v0] d IH]; simpl; [tauto|].
  destruct (String.eqb_spec k0 k) as [->|Hne].
  - split; [discriminate | intros H; exfalso; apply H; now left].
  - rewrite IH. tauto.
Qed.

Lemma keys_dict_set (d : dict) (k : string) (v : json) :
  keys (dict_set d k v)
  = if existsb (String.eqb k) (keys d) then keys d else keys d ++ [k].
Proof.
  induction d as [|[k0 v0] d IH]; [reflexivity|].
  cbn [dict_set]. destruct (String.eqb_spec k0 k) as [->|Hne].
  - cbn [keys map fst existsb]. now rewrite String.eqb_refl.
  - cbn [keys map fst existsb]. fold (keys d). fold (keys (dict_set d k v)).
    rewrite IH. destruct (String.eqb_spec k k0) as [->|_]; [contradiction|].
    cbn [orb]. now destruct (existsb (String.eqb k) (keys d)).
Qed.

Lemma deep_merge_fold (dict1 dict2 : dict) :
  deep_merge dict1 dict2 = fold_left merge_item dict2 dict1.
Proof.
  unfold deep_merge. cbn [deep_merge_into]. apply fold_left_pointwise.
  intros result [key value]. unfold merge_item.
  destruct value; try reflexivity.
Qed.

Lemma dict_get_merge_item_same (result : dict) (k : string) (v : json) :
  dict_get (merge_item result (k, v)) k = merged_value (dict_get result k) v.
Proof.
  unfold merge_item, merged_value.
  destruct v; try reflexivity;
    try (cbn [is_reset]; destruct (dict_get result k) as [[]|];
         rewrite dict_get_set, String.eqb_refl; reflexivity).
  - cbn [is_reset]. destruct (String.eqb s "__reset__").
    + destruct (dict_get result k) eqn:E; cbn [option_map];
        [now rewrite dict_get_set, String.eqb_refl | exact E].
    + destruct (dict_get result k) as [[]|];
        rewrite dict_get_set, String.eqb_refl; reflexivity.
Qed.

Lemma dict_get_merge_item_other (result : dict) (key k : string) (v : json) :
  key <> k -> dict_get (merge_item result (key, v)) k = dict_get result k.
Proof.
  intros Hne. apply String.eqb_neq in Hne. unfold merge_item.
  destruct v; try reflexivity; cbn [is_reset];
    try (destruct (dict_get result key) as [[]|]; rewrite dict_get_set, Hne; reflexivity).
  destruct (String.eqb s "__reset__").
  - destruct (dict_get result key); [now rewrite dict_get_set, Hne | reflexivity].
  - destruct (dict_get result key) as [[]|]; rewrite dict_get_set, Hne; reflexivity.
Qed.

(** X18.  Reading a merged configuration.  For an override with pairwise
    distinct keys, a key reads in [deep_merge dict1 dict2] as follows: as in
    the base when the override lacks it or gives [None]; reset when the
    override gives [__reset__] (an empty dict, list or string, [0] for a
    number and for a boolean alike, [None] for [None]; still absent when the
    base lacks the key); the merge of the two values when both are dicts;
    and the value of the override in every other case. *)
Theorem deep_merge_lookup (dict1 dict2 : dict) (key : string) :
  distinct (keys dict2) = true ->
  dict_get (deep_merge dict1 dict2) key
  = match dict_get dict2 key with
    | Some value => merged_value (dict_get dict1 key) value
    | None => dict_get dict1 key
    end.
Proof.
  rewrite deep_merge_fold. revert dict1.
  induction dict2 as [|[k v] rest IH]; intros dict1 Hd; [reflexivity|].
  change (keys ((k, v) :: rest)) with (k :: keys rest) in Hd.
  apply distinct_cons in Hd. destruct Hd as [Hk Hd].
  cbn [fold_left dict_get]. rewrite (IH _ Hd).
  destruct (String.eqb_spec k key) as [->|Hne].
  - apply dict_get_none in Hk. rewrite Hk. apply dict_get_merge_item_same.
  - now rewrite (dict_get_merge_item_other _ _ _ _ Hne).
Qed.

(** A common configuration and an environment override. *)
Lemma deep_merge_lookup_witness :
  let common := [("debug", JBool true);
                 ("logging", JDict [("level", JStr "INFO"); ("console", JBool true)])] in
  let override := [("debug", JStr "__reset__");
                   ("logging", JDict [("level", JStr "DEBUG")])] in
  distinct (keys override) = true /\
  deep_merge common override
  = [("debug", JInt 0);
     ("logging", JDict [("level", JStr "DEBUG"); ("console", JBool true)])] /\
  dict_get (deep_merge common override) "debug"
  = match dict_get override "debug" with
    | Some value => merged_value (dict_get common "debug") value
    | None => dict_get common "debug"
    end.
Proof.
  intros common override. split; [reflexivity|]. split; [reflexivity|].
  apply (deep_merge_lookup common override "debug"). reflexivity.
Defined.

Lemma keys_merge_item (result : dict) (k : string) (v : json) :
  keys (merge_item result (k, v))
  = if existsb (String.eqb k) (keys result) || negb (adds_key v)
    then keys result else keys result ++ [k].
Proof.
  assert (Hmem : existsb (String.eqb k) (keys result) = false -> dict_get result k = None).
  { intros H. apply dict_get_none. intros Hin. apply existsb_eqb_In in Hin. congruence. }
  assert (Hin : forall old, dict_get result k = Some old ->
                            existsb (String.eqb k) (keys result) = true).
  { intros old H. apply existsb_eqb_In.
    destruct (in_dec string_dec k (keys result)) as [Hi|Hn]; [exact Hi|].
    apply dict_get_none in Hn. congruence. }
  unfold merge_item, adds_key.
  destruct v; cbn [is_reset negb];
    try (now rewrite orb_true_r);
    try (rewrite orb_false_r; destruct (dict_get result k) as [[]|] eqn:E;
         rewrite keys_dict_set; reflexivity).
  destruct (String.eqb s "__reset__"); cbn [negb].
  - rewrite orb_true_r. destruct (dict_get result k) eqn:E; [|reflexivity].
    rewrite keys_dict_set, (Hin _ eq_refl). reflexivity.
  - rewrite orb_false_r. destruct (dict_get result k) as [[]|] eqn:E;
      rewrite keys_dict_set; reflexivity.
Qed.

(** X19.  The keys of a merged configuration.  For an override with pairwise
    distinct keys, [deep_merge] keeps every key of the base, in the order of
    the base, and appends, in the order of the override, the keys that the
    base lacks and to which the override gives a value other than [None]
    and [__reset__]. *)
Theorem deep_merge_keys (dict1 dict2 : dict) :
  distinct (keys dict2) = true ->
  keys (deep_merge dict1 dict2)
  = keys dict1
    ++ map fst (filter (fun kv => negb (existsb (String.eqb (fst kv)) (keys dict1))
                                  && adds_key (snd kv)) dict2).
Proof.
  rewrite deep_merge_fold. revert dict1.
  induction dict2 as [|[k v] rest IH]; intros dict1 Hd.
  - simpl. now rewrite app_nil_r.
  - change (keys ((k, v) :: rest)) with (k :: keys rest) in Hd.
    apply distinct_cons in Hd. destruct Hd as [Hk Hd].
    cbn [fold_left filter fst snd]. rewrite (IH _ Hd), keys_merge_item.
    assert (Hext : forall extra : list string,
               (forall x, In x extra -> x = k) ->
               filter (fun kv => negb (existsb (String.eqb (fst kv)) (keys dict1 ++ extra))
                                 && adds_key (snd kv)) rest
               = filter (fun kv => negb (existsb (String.eqb (fst kv)) (keys dict1))
                                   && adds_key (snd kv)) rest).
    { intros extra Hextra. apply filter_ext_in. intros [k' v'] Hin. cbn [fst snd].
      rewrite existsb_app.
      destruct (existsb (String.eqb k') extra) eqn:E; [|now rewrite orb_false_r].
      exfalso. apply existsb_eqb_In in E. apply Hextra in E. subst k'.
      apply Hk. unfold keys. apply in_map_iff. now exists (k, v'). }
    destruct (existsb (String.eqb k) (keys dict1)); cbn [orb negb andb].
    + reflexivity.
    + destruct (adds_key v); cbn [negb].
      * rewrite (Hext [k]) by (intros x [<-|[]]; reflexivity).
        cbn [map fst]. now rewrite <- app_assoc.
      * reflexivity.
Qed.

(** The keys of the merged example: [cache] is new, [upload] is a reset of a
    key the base lacks. *)
Lemma deep_merge_keys_witness :
  let common := [("debug", JBool true); ("logging", JDict [("level", JStr "INFO")])] in
  let override := [("logging", JDict [("level", JStr "DEBUG")]);
                   ("cache", JDict [("ttl", JNull)]);
                   ("upload", JStr "__reset__"); ("debug", JNull)] in
  distinct (keys override) = true /\
  keys (deep_merge common override) = ["debug"; "logging"; "cache"] /\
  keys (deep_merge common override)
  = keys common
    ++ map fst (filter (fun kv => negb (existsb (String.eqb (fst kv)) (keys common))
                                  && adds_key (snd kv)) override).
Proof.
  intros common override. split; [reflexivity|]. split; [reflexivity|].
  apply (deep_merge_keys common override). reflexivity.
Defined.

Lemma fold_merge_item_fresh (dict2 acc : dict) :
  distinct (keys dict2) = true ->
  (forall k, In k (keys dict2) -> ~ In k (keys acc)) ->
  fold_left merge_item dict2 acc
  = acc ++ filter (fun kv => adds_key (snd kv)) dict2.
Proof.
  revert acc; induction dict2 as [|[k v] rest IH]; intros acc Hd Hfresh.
  - simpl. now rewrite app_nil_r.
  - change (keys ((k, v) :: rest)) with (k :: keys rest) in Hd, Hfresh.
    apply distinct_cons in Hd. destruct Hd as [Hk Hd].
    assert (Hget : dict_get acc k = None)
      by (apply dict_get_none, Hfresh; now left).
    assert (Hstep : merge_item acc (k, v)
                    = if adds_key v then acc ++ [(k, v)] else acc).
    { unfold merge_item, adds_key. rewrite Hget.
      destruct v; cbn [is_reset negb]; try reflexivity;
        try (now apply dict_set_fresh, Hfresh; left).
      destruct (String.eqb s "__reset__"); cbn [negb]; [reflexivity|].
      apply dict_set_fresh, Hfresh. now left. }
    cbn [fold_left filter snd]. rewrite Hstep.
    destruct (adds_key v).
    + rewrite IH; [now rewrite <- app_assoc | exact Hd |].
      intros k' Hin. unfold keys. rewrite map_app, in_app_iff. cbn [map fst].
      intros [H|[H|[]]].
      * apply (Hfresh k'); [now right | exact H].
      * subst k'. contradiction.
    + apply IH; [exact Hd|]. intros k' Hin. apply Hfresh. now right.
Qed.

(** X20.  The ends of the merge.  An empty override, and an override that
    gives [None] to every key, leave the base as it is.  Onto a base that
    shares no key with it, an override with pairwise distinct keys is
    appended item by item, without the items whose value is [None] or
    [__reset__]; the values are taken as they are, so that a [None] or a
    reset marker inside a new subtree stays in the merged configuration. *)
Theorem deep_merge_ends :
  (forall dict1 : dict, deep_merge dict1 [] = dict1) /\
  (forall dict1 dict2 : dict,
      (forall kv, In kv dict2 -> snd kv = JNull) -> deep_merge dict1 dict2 = dict1) /\
  (forall dict1 dict2 : dict,
      distinct (keys dict2) = true ->
      (forall k, In k (keys dict2) -> ~ In k (keys dict1)) ->
      deep_merge dict1 dict2 = dict1 ++ filter (fun kv => adds_key (snd kv)) dict2) /\
  deep_merge [] [("cache", JDict [("ttl", JNull); ("size", JStr "__reset__")])]
  = [("cache", JDict [("ttl", JNull); ("size", JStr "__reset__")])].
Proof.
  split; [reflexivity|]. split; [|split; [|reflexivity]].
  - intros dict1 dict2. rewrite deep_merge_fold. revert dict1.
    induction dict2 as [|[k v] rest IH]; intros dict1 Hnull; [reflexivity|].
    cbn [fold_left]. assert (Hv : v = JNull) by (apply (Hnull (k, v)); now left).
    subst v. cbn [merge_item]. apply IH. intros kv Hin. apply Hnull. now right.
  - intros dict1 dict2 Hd Hfresh. rewrite deep_merge_fold.
    now apply fold_merge_item_fresh.
Qed.

Lemma lower_char_idempotent (a : ascii) : lower_char (lower_char a) = lower_char a.
Proof. destruct a as [[] [] [] [] [] [] [] []]; reflexivity. Qed.

Lemma lower_idempotent (s : string) : lower (lower s) = lower s.
Proof.
  induction s as [|a s IH]; [reflexivity|]. cbn [lower].
  now rewrite lower_char_idempotent, IH.
Qed.

(** X21.  A log format that passes the validator is stored as exactly
    [text] or [json], whatever the letter case it was written in, and
    validating the stored value again changes nothing. *)
Theorem validate_format_normalizes (v stored : string) :
  validate_format v = Some stored ->
  (stored = "text" \/ stored = "json") /\
  stored = lower v /\
  validate_format stored = Some stored.
Proof.
  unfold validate_format. cbn [existsb].
  destruct (String.eqb_spec (lower v) "text") as [E|_].
  - intros H. injection H as <-. rewrite E. repeat split; auto.
  - destruct (String.eqb_spec (lower v) "json") as [E|_]; [|discriminate].
    intros H. injection H as <-. rewrite E. repeat split; auto.
Qed.

(** The format written [JSON]. *)
Lemma validate_format_normalizes_witness :
  validate_format "JSON" = Some "json" /\
  ("json" = "text" \/ "json" = "json") /\
  "json" = lower "JSON" /\
  validate_format "json" = Some "json".
Proof.
  split; [reflexivity|]. apply (validate_format_normalizes "JSON" "json"). reflexivity.
Defined.

(** X22.  No environment name is a development and a production environment
    at once, and both tests ignore the letter case of the name. *)
Theorem environment_tests_exclusive (env : string) :
  is_development env && is_production env = false /\
  is_development (lower env) = is_development env /\
  is_production (lower env) = is_production env.
Proof.
  unfold is_development, is_production, get_environment_from_yaml.
  rewrite lower_idempotent. split; [|split; reflexivity].
  cbn [existsb].
  repeat match goal with
         | |- context [String.eqb (lower env) ?x] =>
             destruct (String.eqb_spec (lower env) x) as [->|?]; cbn [orb andb]
         end; reflexivity.
Qed.

End YamlConfigFacts.

(* ================================================================== *)
(** * BodyCapture: file responses *)
(* ================================================================== *)

Module FileResponseFacts.
Import PyStr Http Logging LoggingProps PyStrFacts LoggingTheorems.

(** The descriptor that stands for the body of a file response. *)
Lemma capture_file_response
    (json_loads : string -> option json) (json_dumps : json -> string)
    (decode_utf8 : list Byte.byte -> option string)
    (self : RequestResponseLoggingMiddleware) (response : Response) :
  log_response_body self = true -> _is_file_response response = true ->
  _capture_response_body json_loads json_dumps decode_utf8 self response
  = let file_info : dict :=
      [ ("type", JStr "file_download");
        ("content_type",
         JStr (headers_get_default (resp_headers response) "content-type" "unknown")) ] in
    let file_info :=
      match
        search_filename
          (headers_get_default (resp_headers response) "content-disposition" EmptyString)
      with
      | Some name => dict_set file_info "filename" (JStr name)
      | None => file_info
      end in
    Some (json_dumps (JDict [ ("file_download_info", JDict file_info);
                              ("message", JStr "<file content not logged>") ])).
Proof.
  intros Hlog Hfile. unfold _capture_response_body. rewrite Hlog, Hfile.
  cbn [negb]. cbv zeta.
  destruct (headers_get_default (resp_headers response) "content-disposition" EmptyString);
    reflexivity.
Qed.

(** X23.  The body of a file response is never logged.  A [FileResponse], and
    any response whose Content-Disposition holds [attachment] or [inline] or
    whose Content-Type starts with one of the file types, is captured as a
    descriptor that depends on the headers alone: two such responses with
    the same headers have the same capture, whatever their class, status and
    body, and whatever the decoder and the JSON parser do. *)
Theorem file_response_body_not_logged
    (json_loads json_loads' : string -> option json) (json_dumps : json -> string)
    (decode_utf8 decode_utf8' : list Byte.byte -> option string)
    (self : RequestResponseLoggingMiddleware) (response response' : Response) :
  _is_file_response response = true ->
  _is_file_response response' = true ->
  resp_headers response' = resp_headers response ->
  _capture_response_body json_loads json_dumps decode_utf8 self response
  = _capture_response_body json_loads' json_dumps decode_utf8' self response'.
Proof.
  intros H H' Hh. destruct (log_response_body self) eqn:Hlog.
  - rewrite !capture_file_response by assumption. now rewrite Hh.
  - unfold _capture_response_body. now rewrite Hlog.
Qed.

(** A download as a [FileResponse] and as a plain response with the same
    headers. *)
Lemma file_response_body_not_logged_witness :
  let self := mkLogging [] [] ["password"] 10000 true false true true in
  let h := [("content-type", "application/pdf");
            ("content-disposition", "attachment; filename=report.pdf")] in
  let r1 := mkResponse FileResponse 200 h [] None in
  let r2 := mkResponse OtherResponse 200 h (list_byte_of_string "%PDF") None in
  (_is_file_response r1 = true /\ _is_file_response r2 = true) /\
  search_filename "attachment; filename=report.pdf" = Some "report.pdf" /\
  _capture_response_body (fun _ => None) (fun _ => "descriptor") (fun _ => None) self r1
  = _capture_response_body (fun _ => Some JNull) (fun _ => "descriptor")
      (fun b => Some (string_of_list_byte b)) self r2.
Proof.
  intros self h r1 r2. split; [split; reflexivity|]. split; [reflexivity|].
  apply (file_response_body_not_logged (fun _ => None) (fun _ => Some JNull)
           (fun _ => "descriptor") (fun _ => None)
           (fun b => Some (string_of_list_byte b)) self r1 r2); reflexivity.
Defined.

Lemma span_name_split (s : string) :
  exists rest : string,
    s = (span_name s ++ rest)%string /\
    (forall a rest', rest = String a rest' -> name_char a = false).
Proof.
  induction s as [|a s [rest [IH1 IH2]]].
  - exists EmptyString. split; [reflexivity | discriminate].
  - cbn [span_name]. destruct (name_char a) eqn:E.
    + exists rest. split; [simpl; now rewrite <- IH1 | exact IH2].
    + exists (String a s). split; [reflexivity|].
      intros a' rest' H. injection H as <- _. exact E.
Qed.

Lemma span_name_chars (s : string) (a : ascii) (pre post : string) :
  span_name s = (pre ++ String a post)%string -> name_char a = true.
Proof.
  revert pre; induction s as [|b s IH]; intros pre H.
  - destruct pre; discriminate H.
  - cbn [span_name] in H. destruct (name_char b) eqn:E.
    + destruct pre as [|c pre]; simpl in H; injection H as -> H; [exact E|].
      now apply (IH pre).
    + destruct pre; discriminate H.
Qed.

Lemma filename_here_sound (s name : string) :
  filename_here s = Some name ->
  exists quote rest : string,
    s = ("filename=" ++ quote ++ name ++ rest)%string /\
    (quote = EmptyString \/ quote = String quote_char EmptyString).
Proof.
  unfold filename_here. destruct (startswith s "filename=") eqn:Hs; [|discriminate].
  apply startswith_iff in Hs. destruct Hs as [t ->].
  change (drop (String.length "filename=") ("filename=" ++ t)) with t.
  destruct t as [|a t].
  - discriminate.
  - destruct (Ascii.eqb_spec a quote_char) as [->|Hne].
    + destruct (span_name t) as [|c n] eqn:E; [discriminate|].
      intros H. injection H as <-. rewrite <- E.
      destruct (span_name_split t) as [rest [Hr _]].
      exists (String quote_char EmptyString), rest. split; [|now right].
      simpl. now rewrite <- Hr.
    + destruct (span_name (String a t)) as [|c n] eqn:E; [discriminate|].
      intros H. injection H as <-. rewrite <- E.
      destruct (span_name_split (String a t)) as [rest [Hr _]].
      exists EmptyString, rest. split; [|now left].
      simpl. simpl in Hr. now rewrite <- Hr.
Qed.

Lemma filename_here_chars (s name : string) :
  filename_here s = Some name ->
  name <> EmptyString /\
  forall (a : ascii) (pre post : string),
    name = (pre ++ String a post)%string -> name_char a = true.
Proof.
  unfold filename_here. destruct (startswith s "filename="); [|discriminate].
  match goal with
  | |- match span_name ?r with _ => _ end = _ -> _ =>
      destruct (span_name r) as [|c n] eqn:E; [discriminate|];
      intros H; injection H as <-; split; [discriminate|];
      intros a pre post Hn; rewrite <- E in Hn; now apply (span_name_chars _ _ _ _ Hn)
  end.
Qed.

(** X24.  The file name that the descriptor of a file response shows is cut
    out of the Content-Disposition value: the value holds the text
    [filename=], then at most one double quote, then the name.  The name is
    not empty and holds neither a double quote nor a semicolon. *)
Theorem search_filename_sound (content_disposition name : string) :
  search_filename content_disposition = Some name ->
  (exists before quote rest : string,
      content_disposition = (before ++ "filename=" ++ quote ++ name ++ rest)%string /\
      (quote = EmptyString \/ quote = String quote_char EmptyString)) /\
  name <> EmptyString /\
  (forall (a : ascii) (pre post : string),
      name = (pre ++ String a post)%string ->
      a <> quote_char /\ a <> ";"%char).
Proof.
  intros H.
  assert (Hhere : exists before suffix : string,
             content_disposition = (before ++ suffix)%string /\
             filename_here suffix = Some name).
  { induction content_disposition as [|c s IH].
    - cbn [search_filename] in H.
      destruct (filename_here EmptyString) eqn:E; [|discriminate].
      injection H as <-. now exists EmptyString, EmptyString.
    - cbn [search_filename] in H.
      destruct (filename_here (String c s)) eqn:E.
      + injection H as <-. now exists EmptyString, (String c s).
      + destruct (IH H) as [b [suf [Hs Hf]]]. exists (String c b), suf.
        split; [simpl; now rewrite <- Hs | exact Hf]. }
  destruct Hhere as [b [suf [-> Hf]]].
  destruct (filename_here_sound _ _ Hf) as [q [rest [-> Hq]]].
  destruct (filename_here_chars _ _ Hf) as [Hne Hchars].
  split; [now exists b, q, rest|]. split; [exact Hne|].
  intros a pre post Hn. specialize (Hchars a pre post Hn).
  unfold name_char in Hchars. apply andb_true_iff in Hchars.
  destruct Hchars as [H1 H2]. apply negb_true_iff in H1, H2.
  split; now apply Ascii.eqb_neq.
Qed.

(** A quoted file name. *)
Lemma search_filename_sound_witness :
  search_filename "attachment; filename=report.pdf; size=3" = Some "report.pdf" /\
  "report.pdf" <> EmptyString.
Proof.
  split; [reflexivity|].
  apply (search_filename_sound "attachment; filename=report.pdf; size=3" "report.pdf").
  reflexivity.
Defined.

End FileResponseFacts.
